(** * ichor: the FEREBUS model reader, the Gaussian-process model and the
      random selector

    A shallow embedding of

    - [ichor/models/model.py] ([check_x_2d], [Model._read_file],
      [Model.weights], [Model.R], [Model.invR], [Model.predict],
      [Model.variance]),
    - [ichor/models/mean/quadratic.py] ([QuadraticMean.value]),
    - [ichor/cli/make_set_methods/random.py] ([RandomPoints.get_points]),

    together with the small part of Python's [str], of numpy and of
    [random.sample] those functions rely on. *)

From Stdlib Require Import List String Ascii Bool Arith ZArith QArith Lia
  Permutation.
Import ListNotations.

Close Scope Q_scope.
Open Scope string_scope.
Open Scope list_scope.
Open Scope nat_scope.

Set Implicit Arguments.

(* ===================================================================== *)
(** * Python exceptions and results                                       *)
(* ===================================================================== *)

(** The built-in exceptions the embedded code can raise.  [LinAlgError] is
    numpy's, raised by [np.linalg.inv]. *)
Inductive exn : Type :=
| StopIteration
| IndexError
| ValueError
| TypeError
| LinAlgError
| AttributeError.

(** A computation without state: an exception or a value. *)
Definition result (A : Type) : Type := (exn + A)%type.

Definition rbind {A B : Type} (r : result A) (k : A -> result B) : result B :=
  match r with
  | inl e => inl e
  | inr a => k a
  end.

Declare Scope result_scope.
Delimit Scope result_scope with res.
Notation "'let!' x ':=' r 'in' k" := (rbind r (fun x => k))
  (at level 10, x name, r at level 100, k at level 200) : result_scope.

(** [[f(a) for a in l]] where [f] may raise. *)
Fixpoint map_result {A B : Type} (f : A -> result B) (l : list A)
  : result (list B) :=
  match l with
  | [] => inr []
  | a :: l' =>
      match f a with
      | inl e => inl e
      | inr b =>
          match map_result f l' with
          | inl e => inl e
          | inr bs => inr (b :: bs)
          end
      end
  end.

(** [l[i]] for [i >= 0]. *)
Definition getitem {A : Type} (l : list A) (i : nat) : result A :=
  match nth_error l i with
  | Some a => inr a
  | None => inl IndexError
  end.

(** [l[-1]]. *)
Definition getlast {A : Type} (l : list A) : result A :=
  match rev l with
  | a :: _ => inr a
  | [] => inl IndexError
  end.

(* ===================================================================== *)
(** * Python strings                                                      *)
(* ===================================================================== *)

Module PyStr.

(** The ASCII characters for which [str.isspace] holds: tab, line feed,
    vertical tab, form feed, carriage return, the four separators
    0x1c-0x1f and the space. *)
Definition isspace (c : ascii) : bool :=
  let n := nat_of_ascii c in
  ((9 <=? n) && (n <=? 13)) || ((28 <=? n) && (n <=? 31)) || (n =? 32).

Definition is_empty (s : string) : bool :=
  match s with
  | EmptyString => true
  | String _ _ => false
  end.

(** [s.startswith(p)]. *)
Definition startswith (s p : string) : bool := String.prefix p s.

(** [p in s]. *)
Fixpoint contains (p s : string) : bool :=
  String.prefix p s ||
  match s with
  | EmptyString => false
  | String _ s' => contains p s'
  end.

(** [s.split()]: the maximal runs of non-whitespace characters.  [cur] is
    the run being read. *)
Fixpoint split_from (cur s : string) : list string :=
  match s with
  | EmptyString => if is_empty cur then [] else [cur]
  | String c s' =>
      if isspace c
      then if is_empty cur then split_from "" s'
           else cur :: split_from "" s'
      else split_from (cur ++ String c "") s'
  end.

Definition split (s : string) : list string := split_from "" s.

(** [s.split(sep)] for a one-character separator: never empty. *)
Fixpoint split_on_from (sep : ascii) (cur s : string) : list string :=
  match s with
  | EmptyString => [cur]
  | String c s' =>
      if Ascii.eqb c sep then cur :: split_on_from sep "" s'
      else split_on_from sep (cur ++ String c "") s'
  end.

Definition split_on (sep : ascii) (s : string) : list string :=
  split_on_from sep "" s.

Fixpoint lstrip_if (p : ascii -> bool) (s : string) : string :=
  match s with
  | EmptyString => ""
  | String c s' => if p c then lstrip_if p s' else s
  end.

Fixpoint rstrip_if (p : ascii -> bool) (s : string) : string :=
  match s with
  | EmptyString => ""
  | String c s' =>
      let r := rstrip_if p s' in
      if p c && is_empty r then "" else String c r
  end.

(** [s.rstrip()], [s.strip()] and [s.rstrip(chars)] for one character. *)
Definition rstrip (s : string) : string := rstrip_if isspace s.
Definition strip (s : string) : string := lstrip_if isspace (rstrip s).
Definition rstrip_char (c : ascii) (s : string) : string :=
  rstrip_if (Ascii.eqb c) s.

(** Decimal digits. *)
Definition digit_of (c : ascii) : option Z :=
  let n := nat_of_ascii c in
  if (48 <=? n) && (n <=? 57) then Some (Z.of_nat (n - 48)) else None.

(** Reads the leading digits of [s] on top of the value [acc]: the value,
    the number of digits read and the rest of the string. *)
Fixpoint take_digits (acc : Z) (count : nat) (s : string)
  : Z * nat * string :=
  match s with
  | EmptyString => (acc, count, "")
  | String c s' =>
      match digit_of c with
      | Some d => take_digits (10 * acc + d) (S count) s'
      | None => (acc, count, s)
      end
  end.

(** An optional sign: [true] for a minus. *)
Definition take_sign (s : string) : bool * string :=
  match s with
  | String "-" s' => (true, s')
  | String "+" s' => (false, s')
  | _ => (false, s)
  end.

(** [int(s)] on a decimal literal: surrounding whitespace, an optional
    sign and at least one digit.  (Python also accepts underscores
    between digits; such a string is a [ValueError] here.) *)
Definition int (s : string) : result Z :=
  let (neg, s1) := take_sign (strip s) in
  match take_digits 0 0 s1 with
  | (v, S _, EmptyString) => inr (if neg then (- v)%Z else v)
  | _ => inl ValueError
  end.

End PyStr.


(* ===================================================================== *)
(** * Double-precision numbers                                            *)
(* ===================================================================== *)

(** The code computes on numpy [float64] values.  The embedding is generic
    in the number type: it needs the two constants and the four operations
    the code uses, [float(s)] on strings, and the literal [1e-10] of
    [Model.__init__].  No algebraic law is assumed of them. *)
Class Float (F : Type) : Type := {
  f0 : F;                                   (* 0.0 *)
  f1 : F;                                   (* 1.0 *)
  fadd : F -> F -> F;
  fsub : F -> F -> F;
  fmul : F -> F -> F;
  fdiv : F -> F -> F;
  float_of_string : string -> option F;     (* float(s), None: ValueError *)
  f1em10 : F                                (* 1e-10 *)
}.

Definition float {F : Type} `{Float F} (s : string) : result F :=
  match float_of_string s with
  | Some x => inr x
  | None => inl ValueError
  end.

(** ** The rationals as an instance

    Exact rational arithmetic, used to run the embedding on concrete
    inputs.  [float(s)] reads a finite decimal literal
    [[+-]digits[.digits][(e|E)[+-]digits]] between optional whitespace and
    gives its exact value, reduced. *)
Module QFloat.

Definition pow10 (e : Z) : Q :=
  if (0 <=? e)%Z then inject_Z (10 ^ e) else Qinv (inject_Z (10 ^ (- e))).

Definition exponent (s : string) : option Z :=
  match s with
  | EmptyString => Some 0%Z
  | String c s' =>
      if Ascii.eqb c "e" || Ascii.eqb c "E" then
        let (neg, s1) := PyStr.take_sign s' in
        match PyStr.take_digits 0 0 s1 with
        | (v, S _, EmptyString) => Some (if neg then (- v)%Z else v)
        | _ => None
        end
      else None
  end.

Definition of_string (s : string) : option Q :=
  let (neg, s1) := PyStr.take_sign (PyStr.strip s) in
  let '(ip, ni, s2) := PyStr.take_digits 0 0 s1 in
  let '(m, nf, s3) :=
    match s2 with
    | String "." s2' => PyStr.take_digits ip 0 s2'
    | _ => (ip, 0, s2)
    end in
  match ni + nf with
  | 0 => None
  | S _ =>
      match exponent s3 with
      | Some e =>
          let v := Qmult (inject_Z m) (pow10 (e - Z.of_nat nf)) in
          Some (Qred (if neg then Qopp v else v))
      | None => None
      end
  end.

#[global] Instance Q_Float : Float Q := {
  f0 := 0%Q;
  f1 := 1%Q;
  fadd := fun a b => Qred (Qplus a b);
  fsub := fun a b => Qred (Qminus a b);
  fmul := fun a b => Qred (Qmult a b);
  fdiv := fun a b => Qred (Qdiv a b);
  float_of_string := of_string;
  f1em10 := (1 # 10000000000)%Q
}.

End QFloat.


(* ===================================================================== *)
(** * numpy arrays of at most two dimensions                              *)
(* ===================================================================== *)

(** An array is its shape and its items as a function of the indices; the
    items outside the shape are never read.  Operations that numpy refuses
    (shapes that do not match) raise [ValueError], as np does. *)
Module np.
Section Arrays.

Context {F : Type} `{Float F}.

Inductive ndarray : Type :=
| Scalar (x : F)                                (* a float64, shape () *)
| Vec (n : nat) (v : nat -> F)                  (* shape (n,) *)
| Mat (r c : nat) (a : nat -> nat -> F).        (* shape (r, c) *)

Definition ndim (a : ndarray) : nat :=
  match a with
  | Scalar _ => 0
  | Vec _ _ => 1
  | Mat _ _ _ => 2
  end.

(** [len(a)]. *)
Definition len (a : ndarray) : result nat :=
  match a with
  | Scalar _ => inl TypeError
  | Vec n _ => inr n
  | Mat r _ _ => inr r
  end.

(** [np.array(l)] for a list of floats. *)
Definition array1 (l : list F) : ndarray :=
  Vec (List.length l) (fun i => nth i l f0).

(** [np.array(l)[:, np.newaxis]]: the list as a column. *)
Definition column (l : list F) : ndarray :=
  Mat (List.length l) 1 (fun i _ => nth i l f0).

(** Whether the rows of a nested list have one length. *)
Definition rectangular (rows : list (list F)) : bool :=
  match rows with
  | [] => true
  | r0 :: _ => forallb (fun r => List.length r =? List.length r0) rows
  end.

(** [np.array(rows)] for a list of lists of floats with rows of one
    length; the empty list gives the empty 1-d array. *)
Definition array2 (rows : list (list F)) : ndarray :=
  match rows with
  | [] => Vec 0 (fun _ => f0)
  | r0 :: _ =>
      Mat (List.length rows) (List.length r0) (fun i j => nth j (nth i rows []) f0)
  end.

(** [x[np.newaxis, :]] for a 1-d array. *)
Definition newaxis_row (n : nat) (v : nat -> F) : ndarray :=
  Mat 1 n (fun _ j => v j).

(** [a.T]. *)
Definition T (a : ndarray) : ndarray :=
  match a with
  | Mat r c a => Mat c r (fun i j => a j i)
  | _ => a
  end.

(** [a.flatten()], row by row. *)
Definition flatten (a : ndarray) : ndarray :=
  match a with
  | Scalar x => Vec 1 (fun _ => x)
  | Vec n v => Vec n v
  | Mat r c a => Vec (r * c) (fun k => a (k / c) (k mod c))
  end.

Definition ones (r c : nat) : ndarray := Mat r c (fun _ _ => f1).
Definition eye (n : nat) : ndarray :=
  Mat n n (fun i j => if i =? j then f1 else f0).
(** [np.empty(n)]: the items are whatever the memory holds; here [0.0]. *)
Definition empty (n : nat) : ndarray := Vec n (fun _ => f0).

(** The sum of [f 0 .. f (n-1)], accumulated from [0.0] upwards. *)
Fixpoint fsum (n : nat) (f : nat -> F) : F :=
  match n with
  | 0 => f0
  | S n' => fadd (fsum n' f) (f n')
  end.

(** ** Broadcasting *)

(** An array seen as two-dimensional: a 1-d array is one row. *)
Definition view2 (a : ndarray) : nat * nat * (nat -> nat -> F) :=
  match a with
  | Scalar x => (1, 1, fun _ _ => x)
  | Vec n v => (1, n, fun _ j => v j)
  | Mat r c a => (r, c, a)
  end.

Definition of_view2 (nd r c : nat) (f : nat -> nat -> F) : ndarray :=
  match nd with
  | 0 => Scalar (f 0 0)
  | 1 => Vec c (fun j => f 0 j)
  | _ => Mat r c f
  end.

(** The common length of two axes: equal, or one of them is 1. *)
Definition broadcast_dim (n1 n2 : nat) : option nat :=
  if n1 =? n2 then Some n1
  else if n1 =? 1 then Some n2
  else if n2 =? 1 then Some n1
  else None.

(** The index read on an axis of length [n]: 0 when it is stretched. *)
Definition bidx (n i : nat) : nat := if n =? 1 then 0 else i.

(** [a op b], item by item, with broadcasting. *)
Definition binop (op : F -> F -> F) (a b : ndarray) : result ndarray :=
  let '(r1, c1, fa) := view2 a in
  let '(r2, c2, fb) := view2 b in
  match broadcast_dim r1 r2, broadcast_dim c1 c2 with
  | Some r, Some c =>
      inr (of_view2 (Nat.max (ndim a) (ndim b)) r c
             (fun i j => op (fa (bidx r1 i) (bidx c1 j))
                            (fb (bidx r2 i) (bidx c2 j))))
  | _, _ => inl ValueError
  end.

Definition add := binop fadd.
Definition sub := binop fsub.
Definition mul := binop fmul.
Definition div := binop fdiv.

(** [a ** 2]: each item times itself. *)
Definition square (a : ndarray) : ndarray :=
  match a with
  | Scalar x => Scalar (fmul x x)
  | Vec n v => Vec n (fun i => fmul (v i) (v i))
  | Mat r c a => Mat r c (fun i j => fmul (a i j) (a i j))
  end.

(** ** Products *)

(** [np.matmul(a, b)]: a 1-d operand is a row on the left and a column on
    the right, and that axis is dropped from the result; scalars are
    refused. *)
Definition matmul (a b : ndarray) : result ndarray :=
  match a, b with
  | Mat r1 c1 a, Mat r2 c2 b =>
      if c1 =? r2
      then inr (Mat r1 c2 (fun i j => fsum c1 (fun k => fmul (a i k) (b k j))))
      else inl ValueError
  | Vec n v, Mat r c b =>
      if n =? r
      then inr (Vec c (fun j => fsum n (fun k => fmul (v k) (b k j))))
      else inl ValueError
  | Mat r c a, Vec n v =>
      if c =? n
      then inr (Vec r (fun i => fsum c (fun k => fmul (a i k) (v k))))
      else inl ValueError
  | Vec n u, Vec m v =>
      if n =? m
      then inr (Scalar (fsum n (fun k => fmul (u k) (v k))))
      else inl ValueError
  | _, _ => inl ValueError
  end.

(** [np.dot(a, b)]: as [matmul] up to two dimensions, and the product item
    by item when an operand is a scalar. *)
Definition dot (a b : ndarray) : result ndarray :=
  match a, b with
  | Scalar _, _ | _, Scalar _ => mul a b
  | _, _ => matmul a b
  end.

(** ** Items *)

(** The rows [for ri in a] iterates over. *)
Definition iter (a : ndarray) : result (list ndarray) :=
  match a with
  | Scalar _ => inl TypeError
  | Vec n v => inr (map (fun i => Scalar (v i)) (seq 0 n))
  | Mat r c a => inr (map (fun i => Vec c (a i)) (seq 0 r))
  end.

(** The value of an array of one item, as [v[i] = a] needs it. *)
Definition item (a : ndarray) : result F :=
  match a with
  | Scalar x => inr x
  | Vec 1 v => inr (v 0)
  | Mat 1 1 a => inr (a 0 0)
  | _ => inl ValueError
  end.

(** [v[i] = a] on a 1-d array [v]. *)
Definition setitem (n : nat) (v : nat -> F) (i : nat) (a : ndarray)
  : result (nat -> F) :=
  if i <? n then
    match item a with
    | inr x => inr (fun k => if k =? i then x else v k)
    | inl e => inl e
    end
  else inl IndexError.

(** ** Reading an array back *)

(** [a.shape]. *)
Definition shape (a : ndarray) : list nat :=
  match a with
  | Scalar _ => []
  | Vec n _ => [n]
  | Mat r c _ => [r; c]
  end.

(** The items, row by row (a scalar and a 1-d array are one row). *)
Definition items (a : ndarray) : list (list F) :=
  let '(r, c, g) := view2 a in
  map (fun i => map (g i) (seq 0 c)) (seq 0 r).

End Arrays.
End np.

Arguments np.ndarray F : clear implicits.

(* ===================================================================== *)
(** * Means and kernels                                                   *)
(* ===================================================================== *)

Section Means.

Context {F : Type} `{Float F}.

(** The three mean functions.  [QuadraticMean.__init__] keeps
    [beta[:, np.newaxis]] of a 1-d [beta], [xmin] and [ymin]. *)
Inductive Mean : Type :=
| ZeroMean
| ConstantMean (value : F)
| QuadraticMean (beta : list F) (xmin : np.ndarray F) (ymin : F).

(** [x.shape[0]]. *)
Definition shape0 (x : np.ndarray F) : result nat :=
  match x with
  | np.Scalar _ => inl IndexError
  | np.Vec n _ => inr n
  | np.Mat r _ _ => inr r
  end.

(** Modelled from the spec: [ZeroMean.value] and [ConstantMean.value]
    (ichor/models/mean, not among the sources).  The spec gives them as
    "zero: always 0" and "constant: a single stored scalar, broadcast",
    one scalar per input row; the value is taken as a column of
    [x.shape[0]] rows, the shape [Model.weights] subtracts from
    [y[:, np.newaxis]] and [Model.predict] flattens. *)
Definition constant_value (c : F) (x : np.ndarray F)
  : result (np.ndarray F) :=
  match shape0 x with
  | inl e => inl e
  | inr m => inr (np.Mat m 1 (fun _ _ => c))
  end.

(** [QuadraticMean.value]:
    [a = x - self._xmin;
     return (np.matmul(a * a, self._beta) + self._ymin).flatten()]. *)
Definition quadratic_value (beta : list F) (xmin : np.ndarray F) (ymin : F)
    (x : np.ndarray F) : result (np.ndarray F) :=
  (let! a := np.sub x xmin in
   let! aa := np.mul a a in
   let! q := np.matmul aa (np.column beta) in
   let! s := np.add q (np.Scalar ymin) in
   inr (np.flatten s))%res.

(** [mean.value(x)]. *)
Definition Mean_value (mean : Mean) (x : np.ndarray F)
  : result (np.ndarray F) :=
  match mean with
  | ZeroMean => constant_value f0 x
  | ConstantMean c => constant_value c x
  | QuadraticMean beta xmin ymin => quadratic_value beta xmin ymin x
  end.

(** The kernels [_read_file] builds, each with its lengthscale array. *)
Inductive Kernel : Type :=
| RBF (lengthscale : list F)
| RBFCyclic (lengthscale : list F).

End Means.

Arguments Mean F : clear implicits.
Arguments Kernel F : clear implicits.

(** The kernel package (ichor/models/kernels) is not among the sources.  The
    model only needs its interface: [KernelInterpreter(composition,
    kernels).interpret()] gives the composite kernel [k], and [k.R(x)] and
    [k.r(x_train, x_test)] give the train-train and the train-test
    covariance matrices.  Each may raise. *)
Class Kernels (F : Type) (K : Type) : Type := {
  interpret : string -> list (string * Kernel F) -> result K;
  k_R : K -> np.ndarray F -> result (np.ndarray F);
  k_r : K -> np.ndarray F -> np.ndarray F -> result (np.ndarray F)
}.

(** [np.linalg.inv]: an inverse, or [LinAlgError]. *)
Class LinAlg (F : Type) : Type := {
  linalg_inv : np.ndarray F -> result (np.ndarray F)
}.

(* ===================================================================== *)
(** * The model object and its reader                                     *)
(* ===================================================================== *)

Section ModelFile.

Context {F : Type} `{Float F} {K : Type} `{Kernels F K}.

(** The attributes of a [Model].  [None] is the [FileContents]
    placeholder [__init__] assigns.  The training inputs are the rows
    [np.array] was given (of one length), the outputs the items of the
    1-d array.  [k] is the attribute the last line of [_read_file]
    assigns and [self.k] reads. *)
Record Model : Type := mkModel {
  nugget : F;
  _system : option string;
  _atom : option string;
  _type : option string;
  _nfeats : option Z;
  _ntrain : option Z;
  _mean : option (Mean F);
  k : option K;
  _x : option (list (list F));
  _y : option (list F)
}.

(** [Model.__init__]. *)
Definition Model_init : Model :=
  {| nugget := f1em10; _system := None; _atom := None; _type := None;
     _nfeats := None; _ntrain := None; _mean := None; k := None;
     _x := None; _y := None |}.

Definition set_nugget (v : F) (m : Model) : Model :=
  mkModel v (_system m) (_atom m) (_type m) (_nfeats m) (_ntrain m)
          (_mean m) (k m) (_x m) (_y m).
Definition set_system (v : string) (m : Model) : Model :=
  mkModel (nugget m) (Some v) (_atom m) (_type m) (_nfeats m) (_ntrain m)
          (_mean m) (k m) (_x m) (_y m).
Definition set_atom (v : string) (m : Model) : Model :=
  mkModel (nugget m) (_system m) (Some v) (_type m) (_nfeats m) (_ntrain m)
          (_mean m) (k m) (_x m) (_y m).
Definition set_type (v : string) (m : Model) : Model :=
  mkModel (nugget m) (_system m) (_atom m) (Some v) (_nfeats m) (_ntrain m)
          (_mean m) (k m) (_x m) (_y m).
Definition set_nfeats (v : Z) (m : Model) : Model :=
  mkModel (nugget m) (_system m) (_atom m) (_type m) (Some v) (_ntrain m)
          (_mean m) (k m) (_x m) (_y m).
Definition set_ntrain (v : Z) (m : Model) : Model :=
  mkModel (nugget m) (_system m) (_atom m) (_type m) (_nfeats m) (Some v)
          (_mean m) (k m) (_x m) (_y m).
Definition set_mean (v : Mean F) (m : Model) : Model :=
  mkModel (nugget m) (_system m) (_atom m) (_type m) (_nfeats m) (_ntrain m)
          (Some v) (k m) (_x m) (_y m).
Definition set_k (v : K) (m : Model) : Model :=
  mkModel (nugget m) (_system m) (_atom m) (_type m) (_nfeats m) (_ntrain m)
          (_mean m) (Some v) (_x m) (_y m).
Definition set_x (v : list (list F)) (m : Model) : Model :=
  mkModel (nugget m) (_system m) (_atom m) (_type m) (_nfeats m) (_ntrain m)
          (_mean m) (k m) (Some v) (_y m).
Definition set_y (v : list F) (m : Model) : Model :=
  mkModel (nugget m) (_system m) (_atom m) (_type m) (_nfeats m) (_ntrain m)
          (_mean m) (k m) (_x m) (Some v).

(** ** The state of [_read_file]

    The object being filled, the lines the file iterator [f] has yet to
    yield (each with its line end), and the two locals. *)
Record state : Type := mkState {
  self : Model;
  f : list string;
  kernel_composition : string;
  kernel_list : list (string * Kernel F)
}.

Definition with_self (g : Model -> Model) (st : state) : state :=
  mkState (g (self st)) (f st) (kernel_composition st) (kernel_list st).
Definition with_f (l : list string) (st : state) : state :=
  mkState (self st) l (kernel_composition st) (kernel_list st).
Definition with_composition (c : string) (st : state) : state :=
  mkState (self st) (f st) c (kernel_list st).
Definition with_kernels (l : list (string * Kernel F)) (st : state)
  : state :=
  mkState (self st) (f st) (kernel_composition st) l.

(** [d[key] = v] on a dict kept in insertion order. *)
Fixpoint dict_set {V : Type} (key : string) (v : V)
    (d : list (string * V)) : list (string * V) :=
  match d with
  | [] => [(key, v)]
  | (key', v') :: d' =>
      if String.eqb key key' then (key, v) :: d'
      else (key', v') :: dict_set key v d'
  end.

Fixpoint dict_get {V : Type} (key : string) (d : list (string * V))
  : option V :=
  match d with
  | [] => None
  | (key', v') :: d' =>
      if String.eqb key key' then Some v' else dict_get key d'
  end.

(** Statements: they change the state and end normally or by an
    exception; an exception leaves the state as it was when raised. *)
Definition M (A : Type) : Type := state -> result A * state.

Definition ret {A : Type} (a : A) : M A := fun st => (inr a, st).

Definition bind {A B : Type} (m : M A) (g : A -> M B) : M B :=
  fun st =>
    match m st with
    | (inl e, st') => (inl e, st')
    | (inr a, st') => g a st'
    end.

Definition lift {A : Type} (r : result A) : M A := fun st => (r, st).

Definition update (g : state -> state) : M unit :=
  fun st => (inr tt, g st).

(** [next(f)]. *)
Definition next : M string :=
  fun st =>
    match f st with
    | [] => (inl StopIteration, st)
    | line :: rest => (inr line, with_f rest st)
    end.

End ModelFile.

Declare Scope py_scope.
Delimit Scope py_scope with py.
Notation "x <- m ;; g" := (bind m (fun x => g))
  (at level 61, m at next level, right associativity) : py_scope.
Notation "m ;; g" := (bind m (fun _ => g))
  (at level 61, right associativity) : py_scope.

Section ReadFile.

Context {F : Type} `{Float F} {K : Type} `{Kernels F K}.

Local Open Scope py_scope.
Local Abbreviation state := (@state F K).
Local Abbreviation M := (@M F K).

(** The loop of the [[training_data.x]] branch, entered with the first
    line read and the rows gathered so far:
    [while line.strip() != "":
       x += [[float(num) for num in line.split()]]; line = next(f)].
    It gives the rows and the lines left in [f]. *)
Fixpoint read_x (line : string) (rest : list string) (x : list (list F))
  : result (list (list F)) * list string :=
  if PyStr.is_empty (PyStr.strip line) then (inr x, rest)
  else
    match map_result float (PyStr.split line) with
    | inl e => (inl e, rest)
    | inr row =>
        match rest with
        | [] => (inl StopIteration, [])
        | line' :: rest' => read_x line' rest' (x ++ [row])
        end
    end.

(** The loop of the [[training_data.y]] branch:
    [while line.strip() != "": y += [float(line)]; line = next(f)]. *)
Fixpoint read_y (line : string) (rest : list string) (y : list F)
  : result (list F) * list string :=
  if PyStr.is_empty (PyStr.strip line) then (inr y, rest)
  else
    match float line with
    | inl e => (inl e, rest)
    | inr v =>
        match rest with
        | [] => (inl StopIteration, [])
        | line' :: rest' => read_y line' rest' (y ++ [v])
        end
    end.

Definition while_x (line : string) : M (list (list F)) :=
  fun st => let (r, rest) := read_x line (f st) [] in (r, with_f rest st).

Definition while_y (line : string) : M (list F) :=
  fun st => let (r, rest) := read_y line (f st) [] in (r, with_f rest st).

(** [np.array(x)] on the gathered rows: rows of different lengths are
    refused. *)
Definition np_array_rows (x : list (list F)) : result (list (list F)) :=
  if np.rectangular x then inr x else inl ValueError.

(** The data line of a kernel section:
    [np.array([float(hp) for hp in line.split()[1:]])]. *)
Definition lengthscale_of (line : string) : result (list F) :=
  map_result float (tl (PyStr.split line)).

(** The branch of a [[kernel.<name>]] line. *)
Definition kernel_section (line : string) : M unit :=
  let kernel_name :=
    PyStr.rstrip_char "]"
      (PyStr.rstrip (last (PyStr.split_on "." line) "")) in
  line <- next ;;
  tok <- lift (getlast (PyStr.split line)) ;;
  let kernel_type := PyStr.strip tok in
  if String.eqb kernel_type "rbf" then
    _ <- next ;;
    _ <- next ;;
    line <- next ;;
    lengthscale <- lift (lengthscale_of line) ;;
    update (fun st =>
      with_kernels (dict_set kernel_name (RBF lengthscale) (kernel_list st))
                   st)
  else if String.eqb kernel_type "rbf-cyclic"
          || String.eqb kernel_type "rbf-cylic" then
    line <- next ;;
    line <- next ;;
    line <- next ;;
    lengthscale <- lift (lengthscale_of line) ;;
    update (fun st =>
      with_kernels
        (dict_set kernel_name (RBFCyclic lengthscale) (kernel_list st)) st)
  else ret tt.

(** The body of [for line in f:], one [if ...: ...; continue] after the
    other. *)
Definition body (line : string) : M unit :=
  if PyStr.startswith line "#" then ret tt
  else if PyStr.contains "name" line then
    v <- lift (getitem (PyStr.split line) 1) ;;
    update (with_self (set_system v))
  else if PyStr.startswith line "atom" then
    v <- lift (getitem (PyStr.split line) 1) ;;
    update (with_self (set_atom v))
  else if PyStr.contains "property" line then
    v <- lift (getitem (PyStr.split line) 1) ;;
    update (with_self (set_type v))
  else if PyStr.contains "nugget" line then
    tok <- lift (getlast (PyStr.split line)) ;;
    v <- lift (float tok) ;;
    update (with_self (set_nugget v))
  else if PyStr.contains "number_of_features" line then
    tok <- lift (getitem (PyStr.split line) 1) ;;
    v <- lift (PyStr.int tok) ;;
    update (with_self (set_nfeats v))
  else if PyStr.contains "number_of_training_points" line then
    tok <- lift (getitem (PyStr.split line) 1) ;;
    v <- lift (PyStr.int tok) ;;
    update (with_self (set_ntrain v))
  else if PyStr.contains "[mean]" line then
    _ <- next ;;
    line <- next ;;
    tok <- lift (getitem (PyStr.split line) 1) ;;
    v <- lift (float tok) ;;
    update (with_self (set_mean (ConstantMean v)))
  else if PyStr.contains "composition" line then
    v <- lift (getlast (PyStr.split line)) ;;
    update (with_composition v)
  else if PyStr.contains "[kernel." line then
    kernel_section line
  else if PyStr.contains "[training_data.x]" line then
    line <- next ;;
    x <- while_x line ;;
    a <- lift (np_array_rows x) ;;
    update (with_self (set_x a))
  else if PyStr.contains "[training_data.y]" line then
    line <- next ;;
    y <- while_y line ;;
    update (with_self (set_y y))
  else ret tt.

(** [for line in f: body].  Each turn takes a line off [f], so as many
    turns as [f] has lines are enough; [None] only when [fuel] is not. *)
Fixpoint for_lines (fuel : nat) (st : state) : option (result unit * state) :=
  match f st with
  | [] => Some (inr tt, st)
  | line :: rest =>
      match fuel with
      | 0 => None
      | S fuel' =>
          match body line (with_f rest st) with
          | (inl e, st') => Some (inl e, st')
          | (inr _, st') => for_lines fuel' st'
          end
      end
  end.

(** The state [_read_file] starts the loop in, on the lines of the file
    at [self.path]. *)
Definition start (m : Model) (lines : list string) : state :=
  mkState m lines "" [].

(** [Model._read_file]: the loop, then
    [self.k = KernelInterpreter(kernel_composition, kernel_list)
                .interpret()].
    The result is how the call ends and the object as it is then. *)
Definition _read_file (m : Model) (lines : list string)
  : option (result unit * Model) :=
  match for_lines (List.length lines) (start m lines) with
  | None => None
  | Some (inl e, st) => Some (inl e, self st)
  | Some (inr _, st) =>
      match interpret (kernel_composition st) (kernel_list st) with
      | inl e => Some (inl e, self st)
      | inr kern => Some (inr tt, set_k kern (self st))
      end
  end.

End ReadFile.

(** ** Notions to state the properties of the reader *)

Section ReaderNotions.

Context {F : Type} `{Float F} {K : Type} `{Kernels F K}.

Local Abbreviation state := (@state F K).
Local Abbreviation M := (@M F K).

(** ** Statements only take lines off the iterator *)

Definition shrinks {A : Type} (m : M A) : Prop :=
  forall st r st', m st = (r, st') -> exists p, f st = p ++ f st'.

(** ** Lines beyond those a statement reads do not matter to it *)

Definition framed {A : Type} (m : M A) : Prop :=
  forall st a st' more,
    m st = (inr a, st') ->
    m (with_f (f st ++ more) st) = (inr a, with_f (f st' ++ more) st').

(** The loop from a state on, with the fuel [_read_file] gives it. *)
Definition run (st : state) : option (result unit * state) :=
  for_lines (List.length (f st)) st.

(** ** Which branch a line takes *)

Inductive branch : Type :=
| Comment | Name | Atom | Property | Nugget | NFeats | NTrain | MeanSec
| Composition | KernelSec | XSec | YSec | Other.

(** The first test of [body] that holds of the line. *)
Definition dispatch (line : string) : branch :=
  if PyStr.startswith line "#" then Comment
  else if PyStr.contains "name" line then Name
  else if PyStr.startswith line "atom" then Atom
  else if PyStr.contains "property" line then Property
  else if PyStr.contains "nugget" line then Nugget
  else if PyStr.contains "number_of_features" line then NFeats
  else if PyStr.contains "number_of_training_points" line then NTrain
  else if PyStr.contains "[mean]" line then MeanSec
  else if PyStr.contains "composition" line then Composition
  else if PyStr.contains "[kernel." line then KernelSec
  else if PyStr.contains "[training_data.x]" line then XSec
  else if PyStr.contains "[training_data.y]" line then YSec
  else Other.

(** The name and the type a kernel section gives. *)
Definition kernel_name (line : string) : string :=
  PyStr.rstrip_char "]" (PyStr.rstrip (last (PyStr.split_on "." line) "")).

Definition kernel_type (line : string) : result string :=
  match getlast (PyStr.split line) with
  | inl e => inl e
  | inr tok => inr (PyStr.strip tok)
  end.

(** A data line of the x block and the row it gives; a data line of the
    y block and its value. *)
Definition x_row (line : string) (row : list F) : Prop :=
  PyStr.is_empty (PyStr.strip line) = false /\
  map_result float (PyStr.split line) = inr row.

Definition y_row (line : string) (v : F) : Prop :=
  PyStr.is_empty (PyStr.strip line) = false /\ float line = inr v.

Definition blank (line : string) : Prop :=
  PyStr.is_empty (PyStr.strip line) = true.

(** ** What a statement leaves as it is *)

(** The statement leaves the part [proj] of the state. *)
Definition keeps {B : Type} (proj : state -> B) {A : Type} (m : M A)
  : Prop :=
  forall st r st', m st = (r, st') -> proj st' = proj st.

(** The statement maintains the property [P] of the state. *)
Definition maintains (P : state -> Prop) {A : Type} (m : M A) : Prop :=
  forall st r st', P st -> m st = (r, st') -> P st'.

(** The mean is still unset, or a constant mean. *)
Definition mean_unset_or_constant (m : @Model F K) : Prop :=
  _mean m = None \/ exists c, _mean m = Some (ConstantMean c).

End ReaderNotions.

(* ===================================================================== *)
(** * Prediction and predictive variance                                  *)
(* ===================================================================== *)

Section Regression.

Context {F : Type} `{Float F} {K : Type} `{Kernels F K} `{LinAlg F}.

Local Open Scope result_scope.
Local Abbreviation Model := (@Model F K).
Local Abbreviation ndarray := (np.ndarray F).

(** An attribute that still holds the [FileContents] placeholder,
    subscripted ([self.y[:, np.newaxis]]) or used as an array or a number
    ([np.eye(self.ntrain)], the training inputs): the placeholder is
    neither. *)
Definition attr {A : Type} (o : option A) : result A :=
  match o with
  | Some a => inr a
  | None => inl TypeError
  end.

(** An attribute that still holds the placeholder and on which a method is
    called ([self.mean.value(...)], [self.k.r(...)], [self.k.R(...)]): the
    placeholder has no such method. *)
Definition receiver {A : Type} (o : option A) : result A :=
  match o with
  | Some a => inr a
  | None => inl AttributeError
  end.

(** [check_x_2d]: [if x.ndim == 1: x = x[np.newaxis, :]]. *)
Definition check_x_2d (x : ndarray) : ndarray :=
  match x with
  | np.Vec n v => np.newaxis_row n v
  | _ => x
  end.

(** [self.x] as the array [np.array] made of the rows. *)
Definition x (m : Model) : result ndarray :=
  let! rows := attr (_x m) in inr (np.array2 rows).

(** A dimension given as a Python int. *)
Definition dim (z : Z) : result nat :=
  if (z <? 0)%Z then inl ValueError else inr (Z.to_nat z).

(** [Model.R]:
    [self.k.R(self.x) + (self.nugget * np.eye(self.ntrain))]. *)
Definition R (m : Model) : result ndarray :=
  let! kern := receiver (k m) in
  let! xs := x m in
  let! kR := k_R kern xs in
  let! nt := attr (_ntrain m) in
  let! n := dim nt in
  let! ne := np.mul (np.Scalar (nugget m)) (np.eye n) in
  np.add kR ne.

(** [Model.invR]: [np.linalg.inv(self.R)]. *)
Definition invR (m : Model) : result ndarray :=
  let! r := R m in linalg_inv r.

(** [Model.weights]:
    [np.matmul(self.invR, self.y[:, np.newaxis] - self.mean.value(self.x))]. *)
Definition weights (m : Model) : result ndarray :=
  let! inv := invR m in
  let! y := attr (_y m) in
  let! mean := receiver (_mean m) in
  let! xs := x m in
  let! mv := Mean_value mean xs in
  let! d := np.sub (np.column y) mv in
  np.matmul inv d.

(** [Model.predict], after [check_x_2d]:
    [(self.mean.value(x) + np.dot(self.k.r(self.x, x).T, self.weights))
       .flatten()]. *)
Definition predict (m : Model) (xstar : ndarray) : result ndarray :=
  let xstar := check_x_2d xstar in
  let! mean := receiver (_mean m) in
  let! mv := Mean_value mean xstar in
  let! kern := receiver (k m) in
  let! xs := x m in
  let! r := k_r kern xs xstar in
  let! w := weights m in
  let! d := np.dot (np.T r) w in
  let! s := np.add mv d in
  inr (np.flatten s).

(** One turn of the loop of [Model.variance]:
    [res1 = np.matmul(np.matmul(ri.T, invR), ri)
     res2 = (1.0 - np.matmul(np.matmul(ones.T, invR), ri)) ** 2
     variance[i] = 1.0 - res1 + res2 / res3]. *)
Definition variance_step (inv ones res3 : ndarray) (n : nat)
    (variance : nat -> F) (i : nat) (ri : ndarray) : result (nat -> F) :=
  let! t1 := np.matmul (np.T ri) inv in
  let! res1 := np.matmul t1 ri in
  let! t2 := np.matmul (np.T ones) inv in
  let! t3 := np.matmul t2 ri in
  let! t4 := np.sub (np.Scalar f1) t3 in
  let res2 := np.square t4 in
  let! t5 := np.sub (np.Scalar f1) res1 in
  let! t6 := np.div res2 res3 in
  let! t7 := np.add t5 t6 in
  np.setitem n variance i t7.

(** [for i, ri in enumerate(r): ...], from index [i] on. *)
Fixpoint variance_loop (inv ones res3 : ndarray) (n : nat)
    (variance : nat -> F) (i : nat) (rows : list ndarray)
  : result (nat -> F) :=
  match rows with
  | [] => inr variance
  | ri :: rows' =>
      match variance_step inv ones res3 n variance i ri with
      | inl e => inl e
      | inr variance' =>
          variance_loop inv ones res3 n variance' (S i) rows'
      end
  end.

(** [Model.variance], after [check_x_2d]. *)
Definition variance (m : Model) (xstar : ndarray) : result ndarray :=
  let xstar := check_x_2d xstar in
  let! kern := receiver (k m) in
  let! xs := x m in
  let! kr := k_r kern xs xstar in
  let r := np.T kr in
  let! inv := invR m in
  let! nt := attr (_ntrain m) in
  let! n := dim nt in
  let ones := np.ones n 1 in
  let! len_x := np.len xstar in
  let! t := np.matmul (np.T ones) inv in
  let! res3 := np.matmul t ones in
  let! rows := np.iter r in
  let! v := variance_loop inv ones res3 len_x (fun _ => f0) 0 rows in
  inr (np.Vec len_x v).

End Regression.

Section Formulas.

Context {F : Type} `{Float F}.

(** ** The formulas, on vectors of length [n] *)

(** [u^T v] and the row [u^T M]. *)
Definition vdot (n : nat) (u v : nat -> F) : F :=
  np.fsum n (fun k => fmul (u k) (v k)).

Definition vecmat (n : nat) (u : nat -> F) (M : nat -> nat -> F)
  : nat -> F :=
  fun j => np.fsum n (fun k => fmul (u k) (M k j)).

Definition all_ones : nat -> F := fun _ => f1.

(** [1 - a + b / c] with [a = r^T invR r], [b = (1 - ones^T invR r)^2]
    and [c = ones^T invR ones]. *)
Definition variance_formula (n : nat) (invR : nat -> nat -> F)
    (r : nat -> F) : F :=
  let a := vdot n (vecmat n r invR) r in
  let t := fsub f1 (vdot n (vecmat n all_ones invR) r) in
  let b := fmul t t in
  let c := vdot n (vecmat n all_ones invR) all_ones in
  fadd (fsub f1 a) (fdiv b c).

End Formulas.

(* ===================================================================== *)
(** * The random selector                                                 *)
(* ===================================================================== *)

(** [random.sample(population, k)] of Python's standard library.  Its
    documented contract: [ValueError] when [k] is negative or larger than
    the population, else a list of [k] items taken at [k] different
    positions of the population. *)
Class Random : Type := {
  sample : list nat -> Z -> result (list nat)
}.

Definition sample_contract (R : Random) : Prop :=
  forall (population : list nat) (k : Z),
    ((k < 0 \/ Z.of_nat (List.length population) < k)%Z ->
       sample population k = inl ValueError) /\
    ((0 <= k <= Z.of_nat (List.length population))%Z ->
       exists positions : list nat,
         List.length positions = Z.to_nat k /\
         NoDup positions /\
         Forall (fun i => i < List.length population) positions /\
         sample population k = inr (map (fun i => nth i population 0) positions)).

(** The selection loop of CPython's [random.sample], run on a copy of the
    population:
    [for i in range(k):
        j = randbelow(n - i)
        result[i] = pool[j]
        pool[j] = pool[n - i - 1]].
    (CPython takes this loop for the smaller populations and one that
    records the chosen positions in a set for the larger ones.)
    The random source is the sequence [rng] of its raw draws, the draw of
    turn [i] reduced below the bound. *)
Module random.
Section Pool.

Variable rng : nat -> nat.

Definition randbelow (i bound : nat) : nat := rng i mod bound.

Fixpoint select (n i todo : nat) (pool : nat -> nat) : list nat :=
  match todo with
  | 0 => []
  | S todo' =>
      let j := randbelow i (n - i) in
      pool j ::
        select n (S i) todo'
          (fun p => if p =? j then pool (n - i - 1) else pool p)
  end.

Definition pool_sample (population : list nat) (k : Z)
  : result (list nat) :=
  let n := List.length population in
  if ((k <? 0) || (Z.of_nat n <? k))%Z then inl ValueError
  else inr (select n 0 (Z.to_nat k) (fun p => nth p population 0)).

Definition Pool_Random : Random := {| sample := pool_sample |}.

End Pool.
End random.

(** [RandomPoints.get_points]:
    [random.sample(range(len(points)), k=min(self.npoints, len(points)))].
    Only the number of points of the pool matters. *)
Definition get_points `{Random} {A : Type} (npoints : Z) (points : list A)
  : result (list nat) :=
  sample (seq 0 (List.length points))
         (Z.min npoints (Z.of_nat (List.length points))).


(* ===================================================================== *)
(** * A concrete instance to run the embedding                            *)
(* ===================================================================== *)

(** The rationals for the numbers, and stand-ins for the two absent
    collaborators, enough to run the reader and the model on concrete
    inputs:
    - an exact inverse by cofactors for [np.linalg.inv];
    - for the kernel package, a composition that is the name of one kernel
      of the file, whose covariance of two rows is
      [1 / (1 + sum_d theta_d * (x_d - x'_d)^2)] over the dimensions of its
      lengthscale: the rational counterpart of the exponential kernel, which
      the rationals do not have.  Rows shorter than the lengthscale are
      refused. *)
Module QModel.
Import QFloat.

Local Open Scope result_scope.

Definition skip (i r : nat) : nat := if r <? i then r else S r.

Definition minor (i j : nat) (a : nat -> nat -> Q) : nat -> nat -> Q :=
  fun r c => a (skip i r) (skip j c).

Definition sign (n : nat) : Q := if Nat.even n then 1%Q else (-1)%Q.

Fixpoint det (n : nat) (a : nat -> nat -> Q) : Q :=
  match n with
  | 0 => 1%Q
  | S n' =>
      np.fsum n (fun j =>
        fmul (fmul (sign j) (a 0 j)) (det n' (minor 0 j a)))
  end.

Definition inv (a : np.ndarray Q) : result (np.ndarray Q) :=
  match a with
  | np.Mat r c a =>
      if negb (r =? c) then inl LinAlgError
      else
        let d := det r a in
        if Qeq_bool d 0 then inl LinAlgError
        else inr (np.Mat r r (fun i j =>
               fdiv (fmul (sign (i + j)) (det (r - 1) (minor j i a))) d))
  | _ => inl LinAlgError
  end.

#[global] Instance Q_LinAlg : LinAlg Q := {| linalg_inv := inv |}.

Definition lengthscale_of_kernel (kern : Kernel Q) : list Q :=
  match kern with
  | RBF l => l
  | RBFCyclic l => l
  end.

Definition cov (theta : list Q) (u v : nat -> Q) : Q :=
  fdiv 1%Q
    (fadd 1%Q
       (np.fsum (List.length theta) (fun d =>
          fmul (nth d theta 0%Q)
               (fmul (fsub (u d) (v d)) (fsub (u d) (v d)))))).

Definition r (kern : Kernel Q) (x_train x_test : np.ndarray Q)
  : result (np.ndarray Q) :=
  let theta := lengthscale_of_kernel kern in
  match x_train, x_test with
  | np.Mat n c a, np.Mat m c' b =>
      if (c <? List.length theta) || (c' <? List.length theta)
      then inl IndexError
      else inr (np.Mat n m (fun i j => cov theta (a i) (b j)))
  | _, _ => inl ValueError
  end.

Definition lookup (composition : string)
    (kernels : list (string * Kernel Q)) : result (Kernel Q) :=
  match dict_get composition kernels with
  | Some kern => inr kern
  | None => inl ValueError
  end.

#[global] Instance Q_Kernels : Kernels Q (Kernel Q) := {|
  interpret := lookup;
  k_R := fun kern x => r kern x x;
  k_r := r
|}.

(** A model file as FEREBUS writes it: one rbf kernel over two features,
    two training points. *)
Definition water : list string :=
  [ "# [metadata]
"; "program ferebus
"; "version 7.0
"; "nugget 1e-10
"; "
"; "[system]
"; "name WATER
"; "atom O1
"; "property iqa
"; "
"; "[dimensions]
"; "number_of_features 2
"; "number_of_training_points 2
"; "
"; "[mean]
"; "type constant
"; "value 1.0
"; "
"; "[kernels]
"; "number_of_kernels 1
"; "composition k1
"; "
"; "[kernel.k1]
"; "type rbf
"; "number_of_dimensions 2
"; "active_dimensions 1 1
"; "thetas 1.0 1.0
"; "
"; "[training_data.x]
"; "0.0 0.0
"; "1.0 1.0
"; "
"; "[training_data.y]
"; "0.0
"; "2.0
"; "
" ].

Definition water_model : Model (F := Q) (K := Kernel Q) :=
  {| nugget := (1 # 10000000000)%Q;
     _system := Some "WATER"; _atom := Some "O1"; _type := Some "iqa";
     _nfeats := Some 2%Z; _ntrain := Some 2%Z;
     _mean := Some (ConstantMean 1%Q);
     k := Some (RBF [1%Q; 1%Q]);
     _x := Some [[0%Q; 0%Q]; [1%Q; 1%Q]];
     _y := Some [0%Q; 2%Q] |}.

End QModel.

(** Inputs of the concrete runs. *)
Module Runs.
Import QModel.

Local Abbreviation QM := (Model (F := Q) (K := Kernel Q)).

(** The items of a matrix a call returned. *)
Definition matrix_of (r : result (np.ndarray Q)) : nat -> nat -> Q :=
  match r with
  | inr (np.Mat _ _ a) => a
  | _ => fun _ _ => 0%Q
  end.

Definition shape_of (r : result (np.ndarray Q)) : result (list nat) :=
  rbind r (fun a => inr (np.shape a)).

(** One test point half way between the two training points of
    [water], and the same with a third feature. *)
Definition half : np.ndarray Q := np.Vec 2 (fun _ => (1 # 2)%Q).

(** [rows] copies of that test point, as a matrix. *)
Definition halves (rows : nat) : np.ndarray Q :=
  np.Mat rows 2 (fun _ _ => (1 # 2)%Q).

(** The model of [water] with a quadratic mean in place of the constant
    one. *)
Definition quadratic_model : QM :=
  set_mean (QuadraticMean [1%Q; 1%Q] (np.Vec 2 (fun _ => 0%Q)) 0%Q)
           water_model.

(** A kernel section with one line between the type line and the line of
    the lengthscales. *)
Definition one_header : list string :=
  [ "composition k1
"; "[kernel.k1]
"; "type rbf
"; "number_of_dimensions 2
"; "thetas 1.0 1.0
"; "
"; "[training_data.y]
"; "0.0
"; "
" ].

(** A file that announces two features and two training points, and
    holds one training input of three features and two outputs. *)
Definition miscounted : list string :=
  [ "number_of_features 2
"; "number_of_training_points 2
"; "[mean]
"; "type constant
"; "value 1.0
"; "composition k1
"; "[kernel.k1]
"; "type rbf
"; "number_of_dimensions 2
"; "active_dimensions 1 1
"; "thetas 1.0 1.0
"; "
"; "[training_data.x]
"; "0.0 0.0 0.0
"; "
"; "[training_data.y]
"; "0.0
"; "2.0
"; "
" ].

Definition rng0 : nat -> nat := fun i => 7 * i + 3.

(** The training inputs of [water] as items, and the origin. *)
Definition train (i j : nat) : Q :=
  nth j (nth i [[0%Q; 0%Q]; [1%Q; 1%Q]] []) 0%Q.
Definition origin : nat -> Q := fun _ => 0%Q.

(** The model of [water] with its two training points at one place and
    no nugget: its [R] has no inverse. *)
Definition singular_model : QM :=
  set_nugget 0%Q (set_x [[0%Q; 0%Q]; [0%Q; 0%Q]] water_model).

(** The model of [water] announcing three training points. *)
Definition miscounted_model : QM := set_ntrain 3%Z water_model.

End Runs.

(* ===================================================================== *)
(** * Checks on concrete inputs                                           *)
(* ===================================================================== *)

Example split_example :
  PyStr.split "thetas  1.0	2.5
" = ["thetas"; "1.0"; "2.5"].
Proof. reflexivity. Qed.

Example kernel_name_example :
  PyStr.rstrip_char "]" (PyStr.rstrip (last (PyStr.split_on "." "[kernel.k1]
") ""))
  = "k1".
Proof. reflexivity. Qed.

Example int_example :
  PyStr.int "12" = inr 12%Z /\ PyStr.int "-3" = inr (-3)%Z /\
  PyStr.int "1.5" = inl ValueError /\ PyStr.int "" = inl ValueError.
Proof. repeat split; reflexivity. Qed.

Example float_example :
  QFloat.of_string "1.5" = Some (3 # 2)%Q /\
  QFloat.of_string " -0.25 " = Some (-1 # 4)%Q /\
  QFloat.of_string "1e-10" = Some (1 # 10000000000)%Q /\
  QFloat.of_string "2.5E+1" = Some (25 # 1)%Q /\
  QFloat.of_string "thetas" = None /\
  QFloat.of_string "." = None.
Proof. repeat split; reflexivity. Qed.

Example get_points_example :
  get_points (H := random.Pool_Random (fun i => 7 * i + 3)) 3
    ["a"; "b"; "c"; "d"; "e"] = inr [3; 2; 4].
Proof. reflexivity. Qed.

Example read_water :
  _read_file Model_init QModel.water = Some (inr tt, QModel.water_model).
Proof. vm_compute. reflexivity. Qed.

(** By symmetry the prediction half way between the two training points is
    the middle of the two outputs. *)
Example predict_water :
  rbind (predict QModel.water_model (np.Vec 2 (fun _ => (1 # 2)%Q)))
        (fun a => inr (np.shape a, np.items a))
  = inr ([1], [[1%Q]]).
Proof. vm_compute. reflexivity. Qed.

(* ===================================================================== *)
(** * Properties of the reader                                            *)
(* ===================================================================== *)

Section ReaderFacts.

Context {F : Type} `{Float F} {K : Type} `{Kernels F K}.

Local Open Scope py_scope.
Local Abbreviation state := (@state F K).
Local Abbreviation M := (@M F K).
Local Abbreviation shrinks m := (@shrinks F K _ m).
Local Abbreviation framed m := (@framed F K _ m).
Local Abbreviation keeps p m := (@keeps F K _ p _ m).
Local Abbreviation maintains P m := (@maintains F K P _ m).
Local Abbreviation Model := (@Model F K).

Lemma with_f_same (st : state) : with_f (f st) st = st.
Proof. destruct st; reflexivity. Qed.


Lemma shrinks_ret {A : Type} (a : A) : shrinks (ret a).
Proof. intros st r st' E. inversion E; subst. now exists []. Qed.

Lemma shrinks_lift {A : Type} (r : result A) : shrinks (lift r).
Proof. intros st r' st' E. inversion E; subst. now exists []. Qed.

Lemma shrinks_update (g : state -> state) :
  (forall st, f (g st) = f st) -> shrinks (update g).
Proof.
  intros Hg st r st' E. inversion E; subst. exists []. now rewrite Hg.
Qed.

Lemma shrinks_next : shrinks next.
Proof.
  intros st r st' E. unfold next in E.
  destruct (f st) as [|line rest] eqn:Ef; inversion E; subst.
  - now exists [].
  - now exists [line].
Qed.

Lemma shrinks_bind {A B : Type} (m : M A) (g : A -> M B) :
  shrinks m -> (forall a, shrinks (g a)) -> shrinks (bind m g).
Proof.
  intros Hm Hg st r st' E. unfold bind in E.
  destruct (m st) as [[e|a] st1] eqn:Em.
  - inversion E; subst. eauto.
  - destruct (Hm _ _ _ Em) as [p1 E1], (Hg _ _ _ _ E) as [p2 E2].
    exists (p1 ++ p2). now rewrite E1, E2, app_assoc.
Qed.

Lemma shrinks_if {A : Type} (b : bool) (m1 m2 : M A) :
  shrinks m1 -> shrinks m2 -> shrinks (if b then m1 else m2).
Proof. now destruct b. Qed.

Lemma read_x_suffix (rest : list string) :
  forall line x r rest',
    read_x line rest x = (r, rest') -> exists p, rest = p ++ rest'.
Proof.
  induction rest as [|l rest IH]; intros line x r rest' E; simpl in E.
  - destruct (PyStr.is_empty (PyStr.strip line));
      [| destruct (map_result float (PyStr.split line))];
      inversion E; subst; now exists [].
  - destruct (PyStr.is_empty (PyStr.strip line)).
    { inversion E; subst. now exists []. }
    destruct (map_result float (PyStr.split line)).
    { inversion E; subst. now exists []. }
    destruct (IH _ _ _ _ E) as [p Ep]. exists (l :: p). now rewrite Ep.
Qed.

Lemma read_y_suffix (rest : list string) :
  forall line y r rest',
    read_y line rest y = (r, rest') -> exists p, rest = p ++ rest'.
Proof.
  induction rest as [|l rest IH]; intros line y r rest' E; simpl in E.
  - destruct (PyStr.is_empty (PyStr.strip line));
      [| destruct (float line)];
      inversion E; subst; now exists [].
  - destruct (PyStr.is_empty (PyStr.strip line)).
    { inversion E; subst. now exists []. }
    destruct (float line).
    { inversion E; subst. now exists []. }
    destruct (IH _ _ _ _ E) as [p Ep]. exists (l :: p). now rewrite Ep.
Qed.

Lemma shrinks_while_x (line : string) : shrinks (while_x line).
Proof.
  intros st r st' E. unfold while_x in E.
  destruct (read_x line (f st) []) as [r0 rest] eqn:Er.
  inversion E; subst. simpl. eapply read_x_suffix; eauto.
Qed.

Lemma shrinks_while_y (line : string) : shrinks (while_y line).
Proof.
  intros st r st' E. unfold while_y in E.
  destruct (read_y line (f st) []) as [r0 rest] eqn:Er.
  inversion E; subst. simpl. eapply read_y_suffix; eauto.
Qed.

Ltac shrinks_tac :=
  repeat first
    [ apply shrinks_if
    | apply shrinks_bind; [| intros ? ]
    | apply shrinks_ret
    | apply shrinks_lift
    | apply shrinks_next
    | apply shrinks_while_x
    | apply shrinks_while_y
    | apply shrinks_update; intros []; reflexivity ].

Lemma shrinks_body (line : string) : shrinks (body line).
Proof. unfold body, kernel_section. shrinks_tac. Qed.

(** ** The fuel of the loop *)

Lemma for_lines_fuel (fuel : nat) :
  forall (st : state) (fuel' : nat),
    List.length (f st) <= fuel -> List.length (f st) <= fuel' ->
    for_lines fuel st = for_lines fuel' st.
Proof.
  induction fuel as [|fuel IH]; intros st fuel' Hlen Hlen'.
  - destruct (f st) eqn:Ef; simpl in Hlen; [| lia ].
    destruct fuel'; simpl; now rewrite Ef.
  - destruct (f st) as [|line rest] eqn:Ef.
    + destruct fuel'; simpl; now rewrite Ef.
    + destruct fuel' as [|fuel']; simpl in Hlen, Hlen'; [ lia |].
      simpl. rewrite Ef.
      destruct (body line (with_f rest st)) as [[e|u] st1] eqn:Eb; auto.
      destruct (shrinks_body _ _ Eb) as [p Ep]. simpl in Ep.
      assert (List.length (f st1) <= List.length rest)
        by (rewrite Ep, length_app; lia).
      apply IH; lia.
Qed.

Lemma for_lines_enough (fuel : nat) (st : state) :
  List.length (f st) <= fuel ->
  for_lines fuel st = for_lines (List.length (f st)) st.
Proof. intros. apply for_lines_fuel; lia. Qed.

(** The loop always comes to an end on the fuel [_read_file] gives it. *)
Lemma for_lines_total (fuel : nat) :
  forall st : state,
    List.length (f st) <= fuel -> for_lines fuel st <> None.
Proof.
  induction fuel as [|fuel IH]; intros st Hlen.
  - destruct (f st) eqn:Ef; simpl in *; [ now rewrite Ef | lia ].
  - simpl. destruct (f st) as [|line rest] eqn:Ef; [ discriminate |].
    destruct (body line (with_f rest st)) as [[e|u] st1] eqn:Eb;
      [ discriminate |].
    apply IH. destruct (shrinks_body _ _ Eb) as [p Ep].
    simpl in Ep, Hlen. rewrite Ep, length_app in Hlen. lia.
Qed.

(** X1.  On every file and every object [_read_file] comes to an end,
    normally or by an exception: each turn of its loop takes at least one
    line off the file, so one turn per line is enough. *)
Lemma _read_file_total (m : Model) (lines : list string) :
  _read_file m lines <> None.
Proof.
  unfold _read_file.
  destruct (for_lines (List.length lines) (start m lines))
    as [[[e|u] st]|] eqn:E.
  - discriminate.
  - destruct (interpret _ _); discriminate.
  - exfalso. revert E. apply for_lines_total. simpl. lia.
Qed.


Lemma framed_ret {A : Type} (a : A) : framed (ret a).
Proof. intros st a' st' more E. inversion E; subst. reflexivity. Qed.

Lemma framed_lift {A : Type} (r : result A) : framed (lift r).
Proof. intros st a st' more E. inversion E; subst. reflexivity. Qed.

Lemma framed_update (g : state -> state) :
  (forall st l, g (with_f l st) = with_f l (g st)) ->
  (forall st, f (g st) = f st) ->
  framed (update g).
Proof.
  intros Hg Hf st a st' more E. inversion E; subst.
  unfold update. now rewrite Hg, Hf.
Qed.

Lemma framed_next : framed next.
Proof.
  intros st a st' more E. unfold next in *.
  destruct (f st) as [|line rest] eqn:Ef; inversion E; subst.
  simpl. reflexivity.
Qed.

Lemma framed_bind {A B : Type} (m : M A) (g : A -> M B) :
  framed m -> (forall a, framed (g a)) -> framed (bind m g).
Proof.
  intros Hm Hg st b st' more E. unfold bind in *.
  destruct (m st) as [[e|a] st1] eqn:Em; [ discriminate |].
  rewrite (Hm _ _ _ more Em).
  specialize (Hg _ _ _ _ more E).
  destruct st1; exact Hg.
Qed.

Lemma framed_if {A : Type} (b : bool) (m1 m2 : M A) :
  framed m1 -> framed m2 -> framed (if b then m1 else m2).
Proof. now destruct b. Qed.

Lemma read_x_more (rest : list string) :
  forall line x r rest' more,
    read_x line rest x = (inr r, rest') ->
    read_x line (rest ++ more) x = (inr r, rest' ++ more).
Proof.
  induction rest as [|l rest IH]; intros line x r rest' more E;
    simpl in E.
  - destruct more; simpl;
      (destruct (PyStr.is_empty (PyStr.strip line));
       [| destruct (map_result float (PyStr.split line))]);
      inversion E; subst; reflexivity.
  - simpl. destruct (PyStr.is_empty (PyStr.strip line)).
    { inversion E; subst. reflexivity. }
    destruct (map_result float (PyStr.split line)); [ discriminate |].
    now apply IH.
Qed.

Lemma read_y_more (rest : list string) :
  forall line y r rest' more,
    read_y line rest y = (inr r, rest') ->
    read_y line (rest ++ more) y = (inr r, rest' ++ more).
Proof.
  induction rest as [|l rest IH]; intros line y r rest' more E;
    simpl in E.
  - destruct more; simpl;
      (destruct (PyStr.is_empty (PyStr.strip line));
       [| destruct (float line)]);
      inversion E; subst; reflexivity.
  - simpl. destruct (PyStr.is_empty (PyStr.strip line)).
    { inversion E; subst. reflexivity. }
    destruct (float line); [ discriminate |].
    now apply IH.
Qed.

Lemma framed_while_x (line : string) : framed (while_x line).
Proof.
  intros st a st' more E. unfold while_x in *.
  destruct (read_x line (f st) []) as [r0 rest] eqn:Er.
  inversion E; subst. simpl.
  now rewrite (read_x_more _ _ _ more Er).
Qed.

Lemma framed_while_y (line : string) : framed (while_y line).
Proof.
  intros st a st' more E. unfold while_y in *.
  destruct (read_y line (f st) []) as [r0 rest] eqn:Er.
  inversion E; subst. simpl.
  now rewrite (read_y_more _ _ _ more Er).
Qed.

Ltac framed_tac :=
  repeat first
    [ apply framed_if
    | apply framed_bind; [| intros ? ]
    | apply framed_ret
    | apply framed_lift
    | apply framed_next
    | apply framed_while_x
    | apply framed_while_y
    | apply framed_update; [ intros [] ?; reflexivity
                           | intros []; reflexivity ] ].

Lemma framed_body (line : string) : framed (body line).
Proof. unfold body, kernel_section. framed_tac. Qed.

(** ** The loop on a file and on a longer file *)


Lemma run_nil (st : state) : f st = [] -> run st = Some (inr tt, st).
Proof. unfold run. intros E. rewrite E. simpl. now rewrite E. Qed.

Lemma run_cons (st : state) (line : string) (rest : list string) :
  f st = line :: rest ->
  run st = match body line (with_f rest st) with
           | (inl e, st') => Some (inl e, st')
           | (inr _, st') => run st'
           end.
Proof.
  unfold run. intros E. rewrite E. simpl. rewrite E.
  destruct (body line (with_f rest st)) as [[e|u] st1] eqn:Eb; auto.
  apply for_lines_enough.
  destruct (shrinks_body _ _ Eb) as [p Ep]. simpl in Ep.
  rewrite Ep, length_app. lia.
Qed.

(** A loop that ends normally has read all the lines. *)
Lemma run_ends (n : nat) :
  forall (st st' : state) u,
    List.length (f st) <= n -> run st = Some (inr u, st') -> f st' = [].
Proof.
  induction n as [|n IH]; intros st st' u Hlen E.
  - destruct (f st) eqn:Ef; simpl in Hlen; [| lia ].
    rewrite (run_nil _ Ef) in E. inversion E; subst. assumption.
  - destruct (f st) as [|line rest] eqn:Ef.
    + rewrite (run_nil _ Ef) in E. inversion E; subst. assumption.
    + rewrite (run_cons _ Ef) in E.
      destruct (body line (with_f rest st)) as [[e|u'] st1] eqn:Eb;
        [ discriminate |].
      apply (IH st1 st' u); auto.
      destruct (shrinks_body _ _ Eb) as [p Ep]. simpl in Ep, Hlen.
      rewrite Ep, length_app in Hlen. lia.
Qed.

(** When the loop reads [f st] to its end normally, on a longer file it
    goes on with the further lines from the state it has then. *)
Lemma run_app (n : nat) :
  forall (st st' : state) u more,
    List.length (f st) <= n ->
    run st = Some (inr u, st') ->
    run (with_f (f st ++ more) st) = run (with_f more st').
Proof.
  induction n as [|n IH]; intros st st' u more Hlen E.
  - destruct (f st) eqn:Ef; simpl in Hlen; [| lia ].
    rewrite (run_nil _ Ef) in E. inversion E; subst. reflexivity.
  - destruct (f st) as [|line rest] eqn:Ef.
    + rewrite (run_nil _ Ef) in E. inversion E; subst. reflexivity.
    + rewrite (run_cons _ Ef) in E.
      destruct (body line (with_f rest st)) as [[e|u'] st1] eqn:Eb;
        [ discriminate |].
      rewrite (run_cons (with_f ((line :: rest) ++ more) st)
                 (line := line) (rest := rest ++ more)) by reflexivity.
      pose proof (framed_body _ _ more Eb) as Eb'. simpl in Eb'.
      replace (with_f (rest ++ more) (with_f ((line :: rest) ++ more) st))
        with (with_f (rest ++ more) (with_f rest st)) by reflexivity.
      rewrite Eb'.
      apply (IH st1 st' u); auto.
      destruct (shrinks_body _ _ Eb) as [p Ep]. simpl in Ep, Hlen.
      rewrite Ep, length_app in Hlen. lia.
Qed.

(** [_read_file] in terms of [run]. *)
Lemma _read_file_run (m : Model) (lines : list string) :
  _read_file m lines =
  match run (start m lines) with
  | None => None
  | Some (inl e, st) => Some (inl e, self st)
  | Some (inr _, st) =>
      match interpret (kernel_composition st) (kernel_list st) with
      | inl e => Some (inl e, self st)
      | inr kern => Some (inr tt, set_k kern (self st))
      end
  end.
Proof. reflexivity. Qed.


Ltac dispatch_tac :=
  unfold dispatch, body; intros E;
  repeat match type of E with
         | (if ?b then _ else _) = _ => destruct b; try discriminate E
         end;
  reflexivity.

Lemma body_nugget (line : string) :
  dispatch line = Nugget ->
  (body line : M unit) =
    (tok <- lift (getlast (PyStr.split line)) ;;
     v <- lift (float tok) ;;
     update (with_self (set_nugget v))).
Proof. dispatch_tac. Qed.

Lemma body_kernel (line : string) :
  dispatch line = KernelSec -> (body line : M unit) = kernel_section line.
Proof. dispatch_tac. Qed.

Lemma body_x (line : string) :
  dispatch line = XSec ->
  (body line : M unit) =
    (line <- next ;;
     x <- while_x line ;;
     a <- lift (np_array_rows x) ;;
     update (with_self (set_x a))).
Proof. dispatch_tac. Qed.

Lemma body_y (line : string) :
  dispatch line = YSec ->
  (body line : M unit) =
    (line <- next ;;
     y <- while_y line ;;
     update (with_self (set_y y))).
Proof. dispatch_tac. Qed.


(** ** Kernel sections *)

Lemma kernel_section_rbf (st : state) hdr ty h1 h2 data post ls :
  f st = ty :: h1 :: h2 :: data :: post ->
  kernel_type ty = inr "rbf" ->
  lengthscale_of data = inr ls ->
  kernel_section hdr st =
    (inr tt,
     with_kernels (dict_set (kernel_name hdr) (RBF ls) (kernel_list st))
                  (with_f post st)).
Proof.
  intros Ef Ety Els. unfold kernel_type in Ety.
  destruct (getlast (PyStr.split ty)) as [e|tok] eqn:Etok;
    [ discriminate |].
  injection Ety as Ety.
  unfold kernel_section, bind, next, lift, update.
  rewrite Ef. cbn [f with_f]. rewrite Etok, Ety.
  change (String.eqb "rbf" "rbf") with true.
  cbn [f with_f]. rewrite Els. destruct st; reflexivity.
Qed.

Lemma kernel_section_cyclic (st : state) hdr ty h1 h2 data post ls tname :
  f st = ty :: h1 :: h2 :: data :: post ->
  kernel_type ty = inr tname ->
  tname = "rbf-cyclic" \/ tname = "rbf-cylic" ->
  lengthscale_of data = inr ls ->
  kernel_section hdr st =
    (inr tt,
     with_kernels
       (dict_set (kernel_name hdr) (RBFCyclic ls) (kernel_list st))
       (with_f post st)).
Proof.
  intros Ef Ety Hname Els. unfold kernel_type in Ety.
  destruct (getlast (PyStr.split ty)) as [e|tok] eqn:Etok;
    [ discriminate |].
  injection Ety as Ety.
  unfold kernel_section, bind, next, lift, update.
  rewrite Ef. cbn [f with_f]. rewrite Etok, Ety.
  destruct Hname as [-> | ->].
  - change (String.eqb "rbf-cyclic" "rbf") with false.
    change (String.eqb "rbf-cyclic" "rbf-cyclic") with true.
    cbn [f with_f orb]. rewrite Els. destruct st; reflexivity.
  - change (String.eqb "rbf-cylic" "rbf") with false.
    change (String.eqb "rbf-cylic" "rbf-cyclic") with false.
    change (String.eqb "rbf-cylic" "rbf-cylic") with true.
    cbn [f with_f orb]. rewrite Els. destruct st; reflexivity.
Qed.

(** ** Training data blocks *)


Lemma read_x_block (rows : list string) (xs : list (list F)) :
  Forall2 x_row rows xs ->
  forall line0 post acc, blank line0 ->
    forall l rest, rows ++ line0 :: post = l :: rest ->
      read_x l rest acc = (inr (acc ++ xs), post).
Proof.
  induction 1 as [|line row rows xs [Hne Hrow] _ IH];
    intros line0 post acc Hb l rest E.
  - injection E as <- <-. destruct post; simpl; rewrite Hb;
      now rewrite app_nil_r.
  - injection E as <- <-.
    destruct (rows ++ line0 :: post) as [|l' rest'] eqn:E'.
    { destruct rows; discriminate. }
    simpl. rewrite Hne, Hrow.
    rewrite (IH line0 post (acc ++ [row]) Hb l' rest' E').
    now rewrite <- app_assoc.
Qed.

Lemma read_y_block (rows : list string) (ys : list F) :
  Forall2 y_row rows ys ->
  forall line0 post acc, blank line0 ->
    forall l rest, rows ++ line0 :: post = l :: rest ->
      read_y l rest acc = (inr (acc ++ ys), post).
Proof.
  induction 1 as [|line v rows ys [Hne Hv] _ IH];
    intros line0 post acc Hb l rest E.
  - injection E as <- <-. destruct post; simpl; rewrite Hb;
      now rewrite app_nil_r.
  - injection E as <- <-.
    destruct (rows ++ line0 :: post) as [|l' rest'] eqn:E'.
    { destruct rows; discriminate. }
    simpl. rewrite Hne, Hv.
    rewrite (IH line0 post (acc ++ [v]) Hb l' rest' E').
    now rewrite <- app_assoc.
Qed.

(** A block that runs into the end of the file. *)
Lemma read_x_eof (rows : list string) (xs : list (list F)) :
  Forall2 x_row rows xs ->
  forall acc l rest, rows = l :: rest ->
    read_x l rest acc = (inl StopIteration, []).
Proof.
  induction 1 as [|line row rows xs [Hne Hrow] _ IH];
    intros acc l rest E; [ discriminate |].
  injection E as <- <-.
  destruct rows as [|l' rest']; simpl; rewrite Hne, Hrow;
    [ reflexivity |].
  now apply IH.
Qed.

Lemma read_y_eof (rows : list string) (ys : list F) :
  Forall2 y_row rows ys ->
  forall acc l rest, rows = l :: rest ->
    read_y l rest acc = (inl StopIteration, []).
Proof.
  induction 1 as [|line v rows ys [Hne Hv] _ IH];
    intros acc l rest E; [ discriminate |].
  injection E as <- <-.
  destruct rows as [|l' rest']; simpl; rewrite Hne, Hv;
    [ reflexivity |].
  now apply IH.
Qed.

(** ** What a statement leaves as it is *)

Section Keeps.

Variable B : Type.
Variable proj : state -> B.
Hypothesis proj_with_f : forall l st, proj (with_f l st) = proj st.


Lemma keeps_ret {A : Type} (a : A) : keeps proj (ret a).
Proof. intros st r st' E. now inversion E. Qed.

Lemma keeps_lift {A : Type} (r : result A) : keeps proj (lift r).
Proof. intros st r' st' E. now inversion E. Qed.

Lemma keeps_update (g : state -> state) :
  (forall st, proj (g st) = proj st) -> keeps proj (update g).
Proof. intros Hg st r st' E. inversion E; subst. apply Hg. Qed.

Lemma keeps_next : keeps proj next.
Proof.
  intros st r st' E. unfold next in E.
  destruct (f st); inversion E; subst; auto.
Qed.

Lemma keeps_bind {A C : Type} (m : M A) (g : A -> M C) :
  keeps proj m -> (forall a, keeps proj (g a)) -> keeps proj (bind m g).
Proof.
  intros Hm Hg st r st' E. unfold bind in E.
  destruct (m st) as [[e|a] st1] eqn:Em.
  - inversion E; subst. eauto.
  - rewrite (Hg _ _ _ _ E). eauto.
Qed.

Lemma keeps_if {A : Type} (b : bool) (m1 m2 : M A) :
  (b = true -> keeps proj m1) -> (b = false -> keeps proj m2) ->
  keeps proj (if b then m1 else m2).
Proof. destruct b; auto. Qed.

Lemma keeps_while_x (line : string) : keeps proj (while_x line).
Proof.
  intros st r st' E. unfold while_x in E.
  destruct (read_x line (f st) []). inversion E; subst. auto.
Qed.

Lemma keeps_while_y (line : string) : keeps proj (while_y line).
Proof.
  intros st r st' E. unfold while_y in E.
  destruct (read_y line (f st) []). inversion E; subst. auto.
Qed.

End Keeps.

Ltac keeps_tac :=
  repeat first
    [ apply keeps_if; intros ?
    | apply keeps_bind; [| intros ? ]
    | apply keeps_ret
    | apply keeps_lift
    | apply keeps_next
    | apply keeps_while_x
    | apply keeps_while_y
    | apply keeps_update; intros []; reflexivity
    | intros [] ?; reflexivity
    | intros ? []; reflexivity
    | congruence ].

(** Only a line with [nugget] in it changes the nugget. *)
Lemma body_keeps_nugget (line : string) :
  PyStr.contains "nugget" line = false ->
  keeps (fun st => nugget (self st)) (body line).
Proof. intros E. unfold body, kernel_section. keeps_tac. Qed.

Lemma run_keeps_nugget (n : nat) :
  forall (st st' : state) r,
    List.length (f st) <= n ->
    Forall (fun l => PyStr.contains "nugget" l = false) (f st) ->
    run st = Some (r, st') ->
    nugget (self st') = nugget (self st).
Proof.
  induction n as [|n IH]; intros st st' r Hlen Hall E.
  - destruct (f st) eqn:Ef; simpl in Hlen; [| lia ].
    rewrite (run_nil _ Ef) in E. now inversion E.
  - destruct (f st) as [|line rest] eqn:Ef.
    + rewrite (run_nil _ Ef) in E. now inversion E.
    + rewrite (run_cons _ Ef) in E. inversion Hall as [|? ? Hl Hrest]; subst.
      destruct (body line (with_f rest st)) as [[e|u] st1] eqn:Eb;
        pose proof (body_keeps_nugget _ Hl _ Eb) as Hk; simpl in Hk.
      * inversion E; subst. exact Hk.
      * destruct (shrinks_body _ _ Eb) as [p Ep]. simpl in Ep, Hlen.
        rewrite (IH st1 st' r); auto.
        -- rewrite Ep, length_app in Hlen. lia.
        -- rewrite Ep in Hrest. now apply Forall_app in Hrest.
Qed.

(** A training data block leaves everything but its own attribute. *)
Lemma body_x_eof (st : state) hdr rows xs :
  dispatch hdr = XSec ->
  f st = rows ->
  Forall2 x_row rows xs ->
  body hdr st = (inl StopIteration, with_f [] st).
Proof.
  intros Hd Ef Hrows. rewrite (body_x _ Hd).
  unfold bind, next, lift, update, while_x.
  rewrite Ef. destruct rows as [|l rest].
  - now rewrite <- Ef, with_f_same.
  - cbn [f with_f]. now rewrite (read_x_eof Hrows [] eq_refl).
Qed.

Lemma body_y_eof (st : state) hdr rows ys :
  dispatch hdr = YSec ->
  f st = rows ->
  Forall2 y_row rows ys ->
  body hdr st = (inl StopIteration, with_f [] st).
Proof.
  intros Hd Ef Hrows. rewrite (body_y _ Hd).
  unfold bind, next, lift, update, while_y.
  rewrite Ef. destruct rows as [|l rest].
  - now rewrite <- Ef, with_f_same.
  - cbn [f with_f]. now rewrite (read_y_eof Hrows [] eq_refl).
Qed.

(** ** The mean a file gives *)

Section Maintains.

Variable P : state -> Prop.
Hypothesis P_with_f : forall l st, P st -> P (with_f l st).

Lemma maintains_ret {A : Type} (a : A) : maintains P (ret a : M A).
Proof. intros st r st' HP E. now inversion E; subst. Qed.

Lemma maintains_lift {A : Type} (r : result A) : maintains P (lift r : M A).
Proof. intros st r' st' HP E. now inversion E; subst. Qed.

Lemma maintains_update (g : state -> state) :
  (forall st, P st -> P (g st)) -> maintains P (update g).
Proof. intros Hg st r st' HP E. inversion E; subst. now apply Hg. Qed.

Lemma maintains_next : maintains P (next : M string).
Proof.
  intros st r st' HP E. unfold next in E.
  destruct (f st); inversion E; subst; auto.
Qed.

Lemma maintains_bind {A C : Type} (m : M A) (g : A -> M C) :
  maintains P m -> (forall a, maintains P (g a)) -> maintains P (bind m g).
Proof.
  intros Hm Hg st r st' HP E. unfold bind in E.
  destruct (m st) as [[e|a] st1] eqn:Em.
  - inversion E; subst. eauto.
  - eapply Hg; [| exact E ]. eauto.
Qed.

Lemma maintains_if {A : Type} (b : bool) (m1 m2 : M A) :
  maintains P m1 -> maintains P m2 -> maintains P (if b then m1 else m2).
Proof. now destruct b. Qed.

Lemma maintains_while_x (line : string) :
  maintains P (while_x line : M (list (list F))).
Proof.
  intros st r st' HP E. unfold while_x in E.
  destruct (read_x line (f st) []). inversion E; subst. auto.
Qed.

Lemma maintains_while_y (line : string) :
  maintains P (while_y line : M (list F)).
Proof.
  intros st r st' HP E. unfold while_y in E.
  destruct (read_y line (f st) []). inversion E; subst. auto.
Qed.

End Maintains.

Ltac maintains_tac :=
  repeat first
    [ apply maintains_if
    | apply maintains_bind; [| intros ? ]
    | apply maintains_ret
    | apply maintains_lift
    | apply maintains_next
    | apply maintains_while_x
    | apply maintains_while_y
    | apply maintains_update
    | intros ? [] ?; assumption
    | intros [] ?; assumption
    | intros [] ?; right; eexists; reflexivity ].

(** The only mean the loop ever assigns is a constant one. *)
Lemma body_mean (line : string) :
  maintains (fun st => mean_unset_or_constant (self st)) (body line).
Proof. unfold body, kernel_section. maintains_tac. Qed.

Lemma run_mean (n : nat) :
  forall (st st' : state) r,
    List.length (f st) <= n ->
    mean_unset_or_constant (self st) ->
    run st = Some (r, st') ->
    mean_unset_or_constant (self st').
Proof.
  induction n as [|n IH]; intros st st' r Hlen HP E.
  - destruct (f st) eqn:Ef; simpl in Hlen; [| lia ].
    rewrite (run_nil _ Ef) in E. now inversion E; subst.
  - destruct (f st) as [|line rest] eqn:Ef.
    + rewrite (run_nil _ Ef) in E. now inversion E; subst.
    + rewrite (run_cons _ Ef) in E.
      destruct (body line (with_f rest st)) as [[e|u] st1] eqn:Eb;
        pose proof (body_mean line (st := with_f rest st) HP Eb) as HP1.
      * now inversion E; subst.
      * destruct (shrinks_body _ _ Eb) as [p Ep]. simpl in Ep, Hlen.
        apply (IH st1 st' r); auto.
        rewrite Ep, length_app in Hlen. lia.
Qed.

(** X16.  Whatever the file, and however the call ends, the object
    [_read_file] fills from a fresh one has no mean or a constant mean:
    never a zero or a quadratic one. *)
Lemma _read_file_mean (lines : list string) r (m' : Model) :
  _read_file Model_init lines = Some (r, m') ->
  mean_unset_or_constant m'.
Proof.
  intros E. rewrite _read_file_run in E.
  destruct (run (start Model_init lines)) as [[[e|u] st']|] eqn:Er;
    [ | | discriminate ].
  - injection E as _ <-.
    eapply run_mean in Er; [ exact Er | apply le_n | now left ].
  - eapply run_mean in Er; [| apply le_n | now left ].
    destruct (interpret _ _); injection E as _ <-; exact Er.
Qed.

(** ** The other branches *)

Lemma body_skip (line : string) :
  dispatch line = Comment \/ dispatch line = Other ->
  (body line : M unit) = ret tt.
Proof. intros [E | E]; revert E; dispatch_tac. Qed.

Lemma body_name (line : string) :
  dispatch line = Name ->
  (body line : M unit) =
    (v <- lift (getitem (PyStr.split line) 1) ;;
     update (with_self (set_system v))).
Proof. dispatch_tac. Qed.

Lemma body_atom (line : string) :
  dispatch line = Atom ->
  (body line : M unit) =
    (v <- lift (getitem (PyStr.split line) 1) ;;
     update (with_self (set_atom v))).
Proof. dispatch_tac. Qed.

Lemma body_property (line : string) :
  dispatch line = Property ->
  (body line : M unit) =
    (v <- lift (getitem (PyStr.split line) 1) ;;
     update (with_self (set_type v))).
Proof. dispatch_tac. Qed.

Lemma body_nfeats (line : string) :
  dispatch line = NFeats ->
  (body line : M unit) =
    (tok <- lift (getitem (PyStr.split line) 1) ;;
     v <- lift (PyStr.int tok) ;;
     update (with_self (set_nfeats v))).
Proof. dispatch_tac. Qed.

Lemma body_ntrain (line : string) :
  dispatch line = NTrain ->
  (body line : M unit) =
    (tok <- lift (getitem (PyStr.split line) 1) ;;
     v <- lift (PyStr.int tok) ;;
     update (with_self (set_ntrain v))).
Proof. dispatch_tac. Qed.

Lemma body_mean_section (line : string) :
  dispatch line = MeanSec ->
  (body line : M unit) =
    (_ <- next ;;
     line <- next ;;
     tok <- lift (getitem (PyStr.split line) 1) ;;
     v <- lift (float tok) ;;
     update (with_self (set_mean (ConstantMean v)))).
Proof. dispatch_tac. Qed.

Lemma body_composition (line : string) :
  dispatch line = Composition ->
  (body line : M unit) =
    (v <- lift (getlast (PyStr.split line)) ;;
     update (with_composition v)).
Proof. dispatch_tac. Qed.

(** A line of fewer than two tokens has no second token. *)
Lemma getitem_short {A : Type} (l : list A) :
  List.length l < 2 -> getitem l 1 = inl IndexError.
Proof.
  intros Hl. unfold getitem.
  destruct (nth_error l 1) eqn:E; [| reflexivity ].
  assert (nth_error l 1 <> None) as Hn by congruence.
  apply nth_error_Some in Hn. lia.
Qed.

(** The loop leaves the attribute [k] alone. *)
Lemma body_keeps_k (line : string) :
  keeps (fun st => k (self st)) (body line).
Proof. unfold body, kernel_section. keeps_tac. Qed.

Lemma run_keeps_k (n : nat) :
  forall (st st' : state) r,
    List.length (f st) <= n ->
    run st = Some (r, st') ->
    k (self st') = k (self st).
Proof.
  induction n as [|n IH]; intros st st' r Hlen E.
  - destruct (f st) eqn:Ef; simpl in Hlen; [| lia ].
    rewrite (run_nil _ Ef) in E. now inversion E.
  - destruct (f st) as [|line rest] eqn:Ef.
    + rewrite (run_nil _ Ef) in E. now inversion E.
    + rewrite (run_cons _ Ef) in E.
      destruct (body line (with_f rest st)) as [[e|u] st1] eqn:Eb;
        pose proof (body_keeps_k line _ Eb) as Hk; simpl in Hk.
      * inversion E; subst. exact Hk.
      * destruct (shrinks_body _ _ Eb) as [p Ep]. simpl in Ep, Hlen.
        rewrite (IH st1 st' r); auto.
        rewrite Ep, length_app in Hlen. lia.
Qed.

(** [d[key] = v] and the lookups after it. *)
Lemma dict_get_set_same {V : Type} (key : string) (v : V)
    (d : list (string * V)) :
  dict_get key (dict_set key v d) = Some v.
Proof.
  induction d as [|[key' v'] d IH]; simpl.
  - now rewrite String.eqb_refl.
  - destruct (String.eqb key key') eqn:E; simpl.
    + now rewrite String.eqb_refl.
    + now rewrite E.
Qed.

Lemma dict_get_set_other {V : Type} (key key0 : string) (v : V)
    (d : list (string * V)) :
  key0 <> key ->
  dict_get key0 (dict_set key v d) = dict_get key0 d.
Proof.
  intros Hne. apply String.eqb_neq in Hne.
  induction d as [|[key' v'] d IH]; simpl.
  - now rewrite Hne.
  - destruct (String.eqb key key') eqn:E; simpl.
    + apply String.eqb_eq in E. subst key'. now rewrite Hne.
    + destruct (String.eqb key0 key'); auto.
Qed.

End ReaderFacts.

(* ===================================================================== *)
(** * Properties of the regression                                        *)
(* ===================================================================== *)

Section ArrayFacts.

Context {F : Type} `{Float F}.

Lemma bidx_lt (n i : nat) : i < n -> np.bidx n i = i.
Proof.
  unfold np.bidx. intros Hi.
  destruct (n =? 1) eqn:E; [ apply Nat.eqb_eq in E; lia | reflexivity ].
Qed.

Lemma bidx_one (i : nat) : np.bidx 1 i = 0.
Proof. reflexivity. Qed.

Lemma broadcast_same (n : nat) : np.broadcast_dim n n = Some n.
Proof. unfold np.broadcast_dim. now rewrite Nat.eqb_refl. Qed.

Lemma broadcast_one_l (n : nat) : np.broadcast_dim 1 n = Some n.
Proof.
  unfold np.broadcast_dim. destruct (1 =? n) eqn:E; [| reflexivity ].
  apply Nat.eqb_eq in E. now subst.
Qed.

Lemma broadcast_one_r (n : nat) : np.broadcast_dim n 1 = Some n.
Proof.
  unfold np.broadcast_dim. destruct (n =? 1) eqn:E; [| reflexivity ].
  reflexivity.
Qed.

(** Two different lengths, neither of them 1, do not broadcast. *)
Lemma broadcast_none (n1 n2 : nat) :
  n1 <> n2 -> n1 <> 1 -> n2 <> 1 -> np.broadcast_dim n1 n2 = None.
Proof.
  intros H1 H2 H3. unfold np.broadcast_dim.
  destruct (n1 =? n2) eqn:E1; [ apply Nat.eqb_eq in E1; lia |].
  destruct (n1 =? 1) eqn:E2; [ apply Nat.eqb_eq in E2; lia |].
  destruct (n2 =? 1) eqn:E3; [ apply Nat.eqb_eq in E3; lia |].
  reflexivity.
Qed.

Lemma fsum_ext (n : nat) (g h : nat -> F) :
  (forall k, k < n -> g k = h k) -> np.fsum n g = np.fsum n h.
Proof.
  induction n as [|n IH]; intros E; simpl; [ reflexivity |].
  rewrite IH, E by auto. reflexivity.
Qed.

Lemma matmul_mat_mat (r c c2 : nat) (a b : nat -> nat -> F) :
  np.matmul (np.Mat r c a) (np.Mat c c2 b) =
  inr (np.Mat r c2 (fun i j => np.fsum c (fun k => fmul (a i k) (b k j)))).
Proof. simpl. now rewrite Nat.eqb_refl. Qed.

Lemma matmul_vec_mat (n c : nat) (v : nat -> F) (b : nat -> nat -> F) :
  np.matmul (np.Vec n v) (np.Mat n c b) =
  inr (np.Vec c (fun j => np.fsum n (fun k => fmul (v k) (b k j)))).
Proof. simpl. now rewrite Nat.eqb_refl. Qed.

Lemma matmul_mat_vec (r n : nat) (a : nat -> nat -> F) (v : nat -> F) :
  np.matmul (np.Mat r n a) (np.Vec n v) =
  inr (np.Vec r (fun i => np.fsum n (fun k => fmul (a i k) (v k)))).
Proof. simpl. now rewrite Nat.eqb_refl. Qed.

Lemma matmul_vec_vec (n : nat) (u v : nat -> F) :
  np.matmul (np.Vec n u) (np.Vec n v) =
  inr (np.Scalar (np.fsum n (fun k => fmul (u k) (v k)))).
Proof. simpl. now rewrite Nat.eqb_refl. Qed.

(** Two matrices of one shape combine item by item. *)
Lemma binop_mat_mat (op : F -> F -> F) (r c : nat)
    (a b : nat -> nat -> F) :
  np.binop op (np.Mat r c a) (np.Mat r c b) =
  inr (np.Mat r c (fun i j =>
         op (a (np.bidx r i) (np.bidx c j))
            (b (np.bidx r i) (np.bidx c j)))).
Proof.
  unfold np.binop. simpl. now rewrite !broadcast_same.
Qed.

(** A scalar and a matrix. *)
Lemma binop_scalar_mat (op : F -> F -> F) (x : F) (r c : nat)
    (b : nat -> nat -> F) :
  np.binop op (np.Scalar x) (np.Mat r c b) =
  inr (np.Mat r c (fun i j => op x (b (np.bidx r i) (np.bidx c j)))).
Proof.
  unfold np.binop. simpl. now rewrite !broadcast_one_l.
Qed.




End ArrayFacts.

Section RegressionFacts.

Context {F : Type} `{Float F} {K : Type} `{Kernels F K} `{LinAlg F}.

Local Abbreviation Model := (@Model F K).


Lemma dim_of_nat (n : nat) : dim (Z.of_nat n) = inr n.
Proof.
  unfold dim. destruct (Z.of_nat n <? 0)%Z eqn:E.
  - apply Z.ltb_lt in E. lia.
  - now rewrite Nat2Z.id.
Qed.

(** ** The loop of [variance] *)

Lemma variance_step_value (n len : nat) (M : nat -> nat -> F)
    (res3 : nat -> nat -> F) (v ri : nat -> F) (i : nat) :
  i < len ->
  variance_step (np.Mat n n M) (np.ones n 1) (np.Mat 1 1 res3) len v i
                (np.Vec n ri)
  = inr (fun p =>
           if p =? i
           then fadd (fsub f1 (vdot n (vecmat n ri M) ri))
                     (fdiv (let t := fsub f1
                                       (vdot n (vecmat n all_ones M) ri) in
                            fmul t t)
                           (res3 0 0))
           else v p).
Proof.
  intros Hi. unfold variance_step, np.ones. cbn [np.T rbind].
  rewrite matmul_vec_mat. cbn [rbind].
  rewrite matmul_vec_vec. cbn [rbind].
  rewrite matmul_mat_mat. cbn [rbind].
  rewrite matmul_mat_vec. cbn [rbind].
  unfold np.setitem. apply Nat.ltb_lt in Hi. rewrite Hi.
  reflexivity.
Qed.

Lemma variance_loop_value (n len : nat) (M : nat -> nat -> F)
    (res3 : nat -> nat -> F) (row : nat -> nat -> F) (count : nat)
    (s : nat) (v : nat -> F) :
    s + count <= len ->
    exists v',
      variance_loop (np.Mat n n M) (np.ones n 1) (np.Mat 1 1 res3) len v s
        (map (fun i => np.Vec n (row i)) (seq s count)) = inr v' /\
      (forall i, s <= i < s + count ->
         v' i = fadd (fsub f1 (vdot n (vecmat n (row i) M) (row i)))
                     (fdiv (let t := fsub f1
                              (vdot n (vecmat n all_ones M) (row i)) in
                            fmul t t)
                           (res3 0 0))) /\
      (forall i, i < s -> v' i = v i).
Proof.
  revert s v. induction count as [|count IH]; intros s v Hle.
  - exists v. simpl. repeat split; auto. intros i Hi. lia.
  - simpl. rewrite variance_step_value by lia.
    destruct (IH (S s)
                (fun p =>
                   if p =? s
                   then fadd (fsub f1 (vdot n (vecmat n (row s) M) (row s)))
                          (fdiv (let t := fsub f1
                                   (vdot n (vecmat n all_ones M) (row s)) in
                                 fmul t t)
                                (res3 0 0))
                   else v p))
      as (v' & Ev & Hin & Hout); [ lia |].
    exists v'. split; [ exact Ev |]. split.
    + intros i Hi. destruct (Nat.eq_dec i s) as [-> | Hne].
      * rewrite Hout by lia. now rewrite Nat.eqb_refl.
      * apply Hin. lia.
    + intros i Hi. rewrite Hout by lia.
      destruct (i =? s) eqn:E; [ apply Nat.eqb_eq in E; lia | reflexivity ].
Qed.

(** C1.  When the kernel gives the train-test covariance of the [n]
    training rows and the [len] rows of [xstar] as an [n] by [len] matrix
    and [invR] is [n] by [n], [variance] returns a vector of [len] items,
    in the order of the rows of [xstar], and item [i] is [1 - a + b / c]
    for the column [i] of the covariance. *)
Theorem variance_value (m : Model) (xstar : np.ndarray F) kern rows
    (n len : nat) (rr M : nat -> nat -> F) :
  k m = Some kern ->
  _x m = Some rows ->
  _ntrain m = Some (Z.of_nat n) ->
  np.len (check_x_2d xstar) = inr len ->
  k_r kern (np.array2 rows) (check_x_2d xstar) = inr (np.Mat n len rr) ->
  invR m = inr (np.Mat n n M) ->
  exists v,
    variance m xstar = inr (np.Vec len v) /\
    forall i, i < len -> v i = variance_formula n M (fun j => rr j i).
Proof.
  intros Hk Hx Hn Hlen Hr Hinv.
  unfold variance, x. rewrite Hk, Hx. cbn [attr receiver rbind].
  rewrite Hr. cbn [rbind]. rewrite Hinv, Hn. cbn [attr receiver rbind].
  rewrite dim_of_nat. cbn [rbind]. rewrite Hlen. cbn [rbind].
  unfold np.ones. cbn [np.T]. rewrite matmul_mat_mat. cbn [rbind].
  rewrite matmul_mat_mat. cbn [rbind np.iter].
  destruct variance_loop_value
    with (n := n) (len := len) (M := M)
         (res3 := fun i j : nat => np.fsum n (fun k0 =>
                    fmul (np.fsum n (fun k1 => fmul f1 (M k1 k0))) f1))
         (row := fun i j => rr j i) (count := len) (s := 0)
         (v := fun _ : nat => f0)
    as (v' & Ev & Hin & _); [ simpl; lia |].
  unfold np.ones in Ev. rewrite Ev. cbn [rbind].
  exists v'. split; [ reflexivity |].
  intros i Hi. rewrite Hin by lia. reflexivity.
Qed.

(** ** [R], [weights] and [predict] *)

Lemma R_value (m : Model) kern rows (n : nat) (KR : nat -> nat -> F) :
  k m = Some kern ->
  _x m = Some rows ->
  _ntrain m = Some (Z.of_nat n) ->
  k_R kern (np.array2 rows) = inr (np.Mat n n KR) ->
  exists a,
    R m = inr (np.Mat n n a) /\
    forall i j, i < n -> j < n ->
      a i j = fadd (KR i j) (fmul (nugget m) (if i =? j then f1 else f0)).
Proof.
  intros Hk Hx Hn HR.
  unfold R, x. rewrite Hk, Hx. cbn [attr receiver rbind]. rewrite HR, Hn.
  cbn [attr receiver rbind]. rewrite dim_of_nat. cbn [rbind].
  unfold np.mul, np.add, np.eye. rewrite binop_scalar_mat. cbn [rbind].
  rewrite binop_mat_mat.
  eexists. split; [ reflexivity |].
  intros i j Hi Hj. cbv beta. now rewrite !bidx_lt by (rewrite ?bidx_lt; lia).
Qed.

(** X13.  With a mean whose value on the [n] training inputs is a column,
    and an [n] by [n] inverse, [weights] is the column of [n] items
    [invR (y - mean)]: item [i] is the sum over [k] of
    [invR[i][k] * (y[k] - mean[k])]. *)
Lemma weights_value (m : Model) mean rows ys (n : nat)
    (M mu : nat -> nat -> F) :
  invR m = inr (np.Mat n n M) ->
  _y m = Some ys ->
  List.length ys = n ->
  _mean m = Some mean ->
  _x m = Some rows ->
  Mean_value mean (np.array2 rows) = inr (np.Mat n 1 mu) ->
  exists w,
    weights m = inr (np.Mat n 1 w) /\
    forall i, i < n ->
      w i 0 = np.fsum n (fun k =>
                fmul (M i k) (fsub (nth k ys f0) (mu k 0))).
Proof.
  intros Hinv Hy Hlen Hmean Hx Hmu.
  unfold weights, x. rewrite Hinv, Hy, Hmean, Hx. cbn [attr receiver rbind].
  rewrite Hmu. cbn [rbind]. unfold np.column, np.sub. rewrite Hlen.
  rewrite binop_mat_mat. cbn [rbind]. rewrite matmul_mat_mat.
  eexists. split; [ reflexivity |].
  intros i Hi. cbv beta. apply fsum_ext. intros k0 Hk0.
  now rewrite bidx_lt by lia.
Qed.

Lemma predict_value (m : Model) (xstar : np.ndarray F) mean kern rows
    (n len : nat) (mu rr w : nat -> nat -> F) :
  _mean m = Some mean ->
  Mean_value mean (check_x_2d xstar) = inr (np.Mat len 1 mu) ->
  k m = Some kern ->
  _x m = Some rows ->
  k_r kern (np.array2 rows) (check_x_2d xstar) = inr (np.Mat n len rr) ->
  weights m = inr (np.Mat n 1 w) ->
  exists v,
    predict m xstar = inr (np.Vec len v) /\
    forall i, i < len ->
      v i = fadd (mu i 0) (np.fsum n (fun j => fmul (rr j i) (w j 0))).
Proof.
  intros Hmean Hmu Hk Hx Hr Hw.
  unfold predict, x. rewrite Hmean. cbn [attr receiver rbind]. rewrite Hmu, Hk, Hx.
  cbn [attr receiver rbind]. rewrite Hr. cbn [rbind]. rewrite Hw.
  cbn [rbind np.T np.dot]. rewrite matmul_mat_mat. cbn [rbind].
  unfold np.add. rewrite binop_mat_mat. cbn [rbind np.flatten].
  rewrite Nat.mul_1_r.
  eexists. split; [ reflexivity |].
  intros i Hi. cbv beta. rewrite Nat.div_1_r. cbn [Nat.modulo].
  now rewrite bidx_lt by lia.
Qed.

(** The zero and the constant mean give a column. *)
Lemma constant_value_column (c : F) (x : np.ndarray F) (len : nat) :
  np.len x = inr len ->
  constant_value c x = inr (np.Mat len 1 (fun _ _ => c)).
Proof.
  destruct x; simpl; intros E; inversion E; subst; reflexivity.
Qed.

(** X21.  [predict] promotes a single feature vector to a matrix of one
    row; on [len] rows, when the mean's value is a column (as the zero and
    the constant mean give), the kernel's covariance is [n] by [len] and
    the weights are a column, it returns a vector of [len] items, item [i]
    being the mean of row [i] plus the product of column [i] of the
    covariance with the weights. *)
Theorem predict_entries (m : Model) (xstar : np.ndarray F) mean kern rows
    (n len : nat) (mu rr w : nat -> nat -> F) :
  np.len (check_x_2d xstar) = inr len ->
  _mean m = Some mean ->
  Mean_value mean (check_x_2d xstar) = inr (np.Mat len 1 mu) ->
  k m = Some kern ->
  _x m = Some rows ->
  k_r kern (np.array2 rows) (check_x_2d xstar) = inr (np.Mat n len rr) ->
  weights m = inr (np.Mat n 1 w) ->
  (exists v,
     predict m xstar = inr (np.Vec len v) /\
     forall i, i < len ->
       v i = fadd (mu i 0) (np.fsum n (fun j => fmul (rr j i) (w j 0)))) /\
  (forall d u,
     predict m (np.Vec d u) = predict m (np.Mat 1 d (fun _ j => u j))).
Proof.
  intros _ Hmean Hmu Hk Hx Hr Hw. split.
  - eapply predict_value; eauto.
  - reflexivity.
Qed.


(** ** The quadratic mean *)

(** On [n] rows of [d] features, with [beta] and [xmin] of [d] items, the
    value of the quadratic mean is flattened: a 1-d array of [n] items. *)
Lemma quadratic_value_flat (beta : list F) (xm : nat -> F) (ymin : F)
    (n d : nat) (a : nat -> nat -> F) :
  List.length beta = d ->
  exists q,
    quadratic_value beta (np.Vec d xm) ymin (np.Mat n d a)
    = inr (np.Vec (n * 1) q).
Proof.
  intros Hbeta. unfold quadratic_value, np.sub, np.mul, np.add, np.column.
  unfold np.binop at 1. cbn [np.view2 np.ndim Nat.max].
  rewrite broadcast_one_r, broadcast_same. cbn [np.of_view2 rbind].
  rewrite binop_mat_mat. cbn [rbind]. rewrite Hbeta, matmul_mat_mat.
  cbn [rbind]. unfold np.binop. cbn [np.view2 np.ndim Nat.max].
  rewrite broadcast_one_r, broadcast_same. cbn [np.of_view2 rbind np.flatten].
  eexists. reflexivity.
Qed.

(** With it the weights of [n] training points are an [n] by [n] matrix:
    the column [y[:, np.newaxis]] minus the 1-d array broadcasts to a
    square. *)
Lemma weights_quadratic_square (m : Model) beta xm ymin rows ys
    (n d : nat) (a M : nat -> nat -> F) :
  invR m = inr (np.Mat n n M) ->
  _y m = Some ys ->
  List.length ys = n ->
  _mean m = Some (QuadraticMean beta (np.Vec d xm) ymin) ->
  List.length beta = d ->
  _x m = Some rows ->
  np.array2 rows = np.Mat n d a ->
  exists W, weights m = inr (np.Mat n (n * 1) W).
Proof.
  intros Hinv Hy Hlen Hmean Hbeta Hx Hrows.
  unfold weights, x. rewrite Hinv, Hy, Hmean, Hx. cbn [attr receiver rbind Mean_value].
  rewrite Hrows.
  destruct (@quadratic_value_flat beta xm ymin n d a Hbeta) as [q ->].
  cbn [rbind]. unfold np.sub, np.column, np.binop. rewrite Hlen.
  cbn [np.view2 np.ndim Nat.max].
  rewrite broadcast_one_r, broadcast_one_l. cbn [np.of_view2 rbind].
  rewrite matmul_mat_mat. eexists. reflexivity.
Qed.

End RegressionFacts.

(* ===================================================================== *)
(** * The regression: the quadratic mean, failures, symmetry              *)
(* ===================================================================== *)

Section RegressionMore.

Context {F : Type} `{Float F} {K : Type} `{Kernels F K} `{LinAlg F}.

Local Abbreviation Model := (@Model F K).

(** X11.  On [n] rows of [d] features, with [beta] and [xmin] of [d]
    items, [QuadraticMean.value] returns [n] items, the item of row [i]
    being the sum over the features of [(x - xmin)^2 * beta], plus
    [ymin]. *)
Theorem quadratic_value_items (beta : list F) (xm : nat -> F) (ymin : F)
    (n d : nat) (a : nat -> nat -> F) :
  List.length beta = d ->
  exists q,
    quadratic_value beta (np.Vec d xm) ymin (np.Mat n d a)
    = inr (np.Vec n q) /\
    forall i, i < n ->
      q i = fadd (np.fsum d (fun j =>
                    fmul (fmul (fsub (a i j) (xm j)) (fsub (a i j) (xm j)))
                         (nth j beta f0)))
                 ymin.
Proof.
  intros Hbeta. unfold quadratic_value, np.sub, np.mul, np.add, np.column.
  unfold np.binop at 1. cbn [np.view2 np.ndim Nat.max].
  rewrite broadcast_one_r, broadcast_same. cbn [np.of_view2 rbind].
  rewrite binop_mat_mat. cbn [rbind]. rewrite Hbeta, matmul_mat_mat.
  cbn [rbind]. unfold np.binop. cbn [np.view2 np.ndim Nat.max].
  rewrite broadcast_one_r, broadcast_same. cbn [np.of_view2 rbind np.flatten].
  rewrite Nat.mul_1_r.
  eexists. split; [ reflexivity |].
  intros i Hi. cbv beta. rewrite Nat.div_1_r. cbn [Nat.modulo].
  f_equal. rewrite !(bidx_lt Hi).
  apply fsum_ext. intros j Hj. cbv beta.
  now rewrite !(bidx_lt Hj).
Qed.

(** X12.  [QuadraticMean.value] fails with numpy's [ValueError] when
    [beta] has not one item per feature of the rows, and when the rows
    have more than one feature and [xmin] has neither one item per feature
    nor a single item.  Rows of one feature are the exception to the
    second: the subtraction broadcasts them against an [xmin] of any
    length, and with a [beta] of that length a value is returned. *)
Theorem quadratic_value_shapes (beta : list F) (xm : nat -> F) (ymin : F)
    (n d d' : nat) (a : nat -> nat -> F) :
  (List.length beta <> d ->
   quadratic_value beta (np.Vec d xm) ymin (np.Mat n d a) = inl ValueError) /\
  (d <> d' -> d <> 1 -> d' <> 1 ->
   quadratic_value beta (np.Vec d' xm) ymin (np.Mat n d a) = inl ValueError) /\
  (List.length beta = d' ->
   exists q,
     quadratic_value beta (np.Vec d' xm) ymin (np.Mat n 1 a)
     = inr (np.Vec n q) /\
     forall i, i < n ->
       q i = fadd (np.fsum d' (fun j =>
                     fmul (fmul (fsub (a i 0) (xm j)) (fsub (a i 0) (xm j)))
                          (nth j beta f0)))
                  ymin).
Proof.
  split; [| split ].
  - intros Hbeta.
    unfold quadratic_value, np.sub, np.mul, np.column.
    unfold np.binop at 1. cbn [np.view2 np.ndim Nat.max].
    rewrite broadcast_one_r, broadcast_same. cbn [np.of_view2 rbind].
    rewrite binop_mat_mat. cbn [rbind np.matmul].
    destruct (d =? List.length beta) eqn:E; [| reflexivity ].
    apply Nat.eqb_eq in E. congruence.
  - intros Hd1 Hd2 Hd3.
    unfold quadratic_value, np.sub, np.binop. cbn [np.view2].
    rewrite broadcast_one_r, (broadcast_none Hd1 Hd2 Hd3). reflexivity.
  - intros Hbeta.
    unfold quadratic_value, np.sub, np.mul, np.add, np.column.
    unfold np.binop at 1. cbn [np.view2 np.ndim Nat.max].
    rewrite broadcast_one_r, broadcast_one_l. cbn [np.of_view2 rbind].
    rewrite binop_mat_mat. cbn [rbind]. rewrite Hbeta, matmul_mat_mat.
    cbn [rbind]. unfold np.binop. cbn [np.view2 np.ndim Nat.max].
    rewrite broadcast_one_r, broadcast_same.
    cbn [np.of_view2 rbind np.flatten].
    rewrite Nat.mul_1_r.
    eexists. split; [ reflexivity |].
    intros i Hi. cbv beta. rewrite Nat.div_1_r. cbn [Nat.modulo].
    f_equal. rewrite !(bidx_lt Hi).
    apply fsum_ext. intros j Hj. cbv beta.
    now rewrite !(bidx_lt Hj), !bidx_one.
Qed.

(** X14.  A failure of the inversion of [R] is the failure of everything
    built on it: of [weights], of [variance] once the kernel has given its
    covariance, and of [predict] once the mean and the kernel have given
    theirs. *)
Theorem inverse_failure_propagates (m : Model) (xstar : np.ndarray F)
    (e : exn) :
  invR m = inl e ->
  weights m = inl e /\
  (forall kern rows kr,
     k m = Some kern ->
     _x m = Some rows ->
     k_r kern (np.array2 rows) (check_x_2d xstar) = inr kr ->
     variance m xstar = inl e /\
     (forall mean mv,
        _mean m = Some mean ->
        Mean_value mean (check_x_2d xstar) = inr mv ->
        predict m xstar = inl e)).
Proof.
  intros Hinv.
  assert (Hw : weights m = inl e) by (unfold weights; now rewrite Hinv).
  split; [ exact Hw |].
  intros kern rows kr Hk Hx Hr. split.
  - unfold variance, x. rewrite Hk, Hx. cbn [attr receiver rbind].
    rewrite Hr. cbn [rbind]. now rewrite Hinv.
  - intros mean mv Hmean Hmv.
    unfold predict, x. rewrite Hmean. cbn [attr receiver rbind].
    rewrite Hmv, Hk, Hx. cbn [attr receiver rbind]. rewrite Hr. cbn [rbind].
    now rewrite Hw.
Qed.

(** X15.  When the kernel's train-train covariance is symmetric, so is
    [R]. *)
Theorem R_symmetric (m : Model) kern rows (n : nat) (KR : nat -> nat -> F) :
  k m = Some kern ->
  _x m = Some rows ->
  _ntrain m = Some (Z.of_nat n) ->
  k_R kern (np.array2 rows) = inr (np.Mat n n KR) ->
  (forall i j, i < n -> j < n -> KR i j = KR j i) ->
  exists a,
    R m = inr (np.Mat n n a) /\
    forall i j, i < n -> j < n -> a i j = a j i.
Proof.
  intros Hk Hx Hn HR Hsym.
  destruct (R_value m Hk Hx Hn HR) as (a & Ea & Hval).
  exists a. split; [ exact Ea |].
  intros i j Hi Hj. rewrite !Hval by assumption.
  now rewrite (Hsym i j Hi Hj), (Nat.eqb_sym i j).
Qed.

(** X20.  The number of training points the object holds is compared
    with nothing before [R] is built.  There, a kernel covariance of
    [n'] by [n'] and an identity of [n] other than [n'], neither being 1,
    do not add up, and a negative number makes no identity: [R] fails with
    numpy's [ValueError]. *)
Theorem R_count_mismatch (m : Model) kern rows (n' : nat)
    (KR : nat -> nat -> F) :
  k m = Some kern ->
  _x m = Some rows ->
  k_R kern (np.array2 rows) = inr (np.Mat n' n' KR) ->
  (forall n, _ntrain m = Some (Z.of_nat n) ->
             n' <> n -> n' <> 1 -> n <> 1 -> R m = inl ValueError) /\
  (forall z, _ntrain m = Some z -> (z < 0)%Z -> R m = inl ValueError).
Proof.
  intros Hk Hx HR. split.
  - intros n Hn Hne Hn1 Hn2.
    unfold R, x. rewrite Hk, Hx. cbn [attr receiver rbind]. rewrite HR, Hn.
    cbn [attr receiver rbind]. rewrite dim_of_nat. cbn [rbind].
    unfold np.mul, np.add, np.eye. rewrite binop_scalar_mat. cbn [rbind].
    unfold np.binop. cbn [np.view2].
    now rewrite (broadcast_none Hne Hn1 Hn2).
  - intros z Hz Hneg.
    unfold R, x. rewrite Hk, Hx. cbn [attr receiver rbind]. rewrite HR, Hz.
    cbn [attr receiver rbind]. unfold dim.
    apply Z.ltb_lt in Hneg. now rewrite Hneg.
Qed.

End RegressionMore.

(* ===================================================================== *)
(** * Properties of the random selector                                   *)
(* ===================================================================== *)

Section PoolFacts.

Variable rng : nat -> nat.

Lemma select_length (n todo : nat) :
  forall i pool, List.length (random.select rng n i todo pool) = todo.
Proof.
  induction todo as [|todo IH]; intros i pool; simpl; [ reflexivity |].
  now rewrite IH.
Qed.

Lemma select_ext (n todo : nat) :
  forall i pool1 pool2,
    (forall p, pool1 p = pool2 p) ->
    random.select rng n i todo pool1 = random.select rng n i todo pool2.
Proof.
  induction todo as [|todo IH]; intros i pool1 pool2 E; simpl;
    [ reflexivity |].
  rewrite E. f_equal. apply IH. intros p.
  destruct (p =? _); apply E.
Qed.

Lemma select_map (g : nat -> nat) (n todo : nat) :
  forall i pool,
    random.select rng n i todo (fun p => g (pool p)) =
    map g (random.select rng n i todo pool).
Proof.
  induction todo as [|todo IH]; intros i pool; simpl; [ reflexivity |].
  f_equal. rewrite <- IH. apply select_ext. intros p.
  now destruct (p =? _).
Qed.

Lemma randbelow_lt (i bound : nat) :
  0 < bound -> random.randbelow rng i bound < bound.
Proof. intros Hb. unfold random.randbelow. apply Nat.mod_upper_bound. lia. Qed.

(** The loop keeps the live part of the pool free of repetitions, and
    what it selects comes from there. *)
Lemma select_distinct (n todo : nat) :
  forall i pool,
    todo <= n - i ->
    (forall p q, p < n - i -> q < n - i -> pool p = pool q -> p = q) ->
    NoDup (random.select rng n i todo pool) /\
    (forall v, In v (random.select rng n i todo pool) ->
               exists p, p < n - i /\ v = pool p).
Proof.
  induction todo as [|todo IH]; intros i pool Hle Hinj; simpl.
  - split; [ constructor | intros v [] ].
  - set (j := random.randbelow rng i (n - i)).
    assert (Hj : j < n - i) by (apply randbelow_lt; lia).
    set (pool' := fun p => if p =? j then pool (n - i - 1) else pool p).
    assert (Hinj' : forall p q, p < n - S i -> q < n - S i ->
                                pool' p = pool' q -> p = q).
    { intros p q Hp Hq. unfold pool'.
      destruct (p =? j) eqn:Ep, (q =? j) eqn:Eq; intros E.
      - apply Nat.eqb_eq in Ep, Eq. lia.
      - apply Hinj in E; lia.
      - apply Hinj in E; lia.
      - apply Hinj in E; lia. }
    destruct (IH (S i) pool' ltac:(lia) Hinj') as [Hnd Hin].
    split.
    + constructor; [| exact Hnd ].
      intros Hmem. destruct (Hin _ Hmem) as (p & Hp & Ev).
      unfold pool' in Ev. destruct (p =? j) eqn:Ep.
      * apply Nat.eqb_eq in Ep. apply Hinj in Ev; lia.
      * apply Nat.eqb_neq in Ep. apply Hinj in Ev; lia.
    + intros v [<- | Hmem]; [ now exists j |].
      destruct (Hin _ Hmem) as (p & Hp & Ev). unfold pool' in Ev.
      destruct (p =? j); [ exists (n - i - 1) | exists p ];
        split; auto; lia.
Qed.

Lemma pool_sample_contract : sample_contract (random.Pool_Random rng).
Proof.
  intros population k. cbn [sample random.Pool_Random].
  unfold random.pool_sample. split.
  - intros Hk.
    destruct (k <? 0)%Z eqn:E1; [ reflexivity |].
    destruct (Z.of_nat (List.length population) <? k)%Z eqn:E2;
      [ reflexivity |].
    apply Z.ltb_ge in E1, E2. lia.
  - intros [Hk1 Hk2].
    destruct (k <? 0)%Z eqn:E1; [ apply Z.ltb_lt in E1; lia |].
    destruct (Z.of_nat (List.length population) <? k)%Z eqn:E2;
      [ apply Z.ltb_lt in E2; lia |].
    cbn [orb].
    set (n := List.length population).
    exists (random.select rng n 0 (Z.to_nat k) (fun p => p)).
    destruct (@select_distinct n (Z.to_nat k) 0 (fun p => p))
      as [Hnd Hin]; [ lia | auto |].
    repeat split.
    + apply select_length.
    + exact Hnd.
    + apply Forall_forall. intros v Hv.
      destruct (Hin _ Hv) as (p & Hp & ->). lia.
    + f_equal.
      apply (select_map (fun i => nth i population 0) n (Z.to_nat k) 0
               (fun p => p)).
Qed.

End PoolFacts.

Section SelectorFacts.

Context {R : Random}.
Hypothesis contract : sample_contract R.

Lemma nth_seq_map (n : nat) (l : list nat) :
  Forall (fun i => i < n) l ->
  map (fun i => nth i (seq 0 n) 0) l = l.
Proof.
  induction 1 as [|i l Hi _ IH]; simpl; [ reflexivity |].
  now rewrite IH, seq_nth.
Qed.

(** What [get_points] gives for a request that is not negative. *)
Lemma get_points_value {A : Type} (npoints : Z) (points : list A) :
  (0 <= npoints)%Z ->
  exists res,
    get_points npoints points = inr res /\
    Z.of_nat (List.length res) =
      Z.min npoints (Z.of_nat (List.length points)) /\
    NoDup res /\
    Forall (fun i => i < List.length points) res.
Proof.
  intros Hn. unfold get_points.
  destruct (contract (seq 0 (List.length points))
              (Z.min npoints (Z.of_nat (List.length points))))
    as [_ Hok].
  rewrite length_seq in Hok.
  destruct Hok as (pos & Hlen & Hnd & Hall & E); [ lia |].
  rewrite nth_seq_map in E by exact Hall.
  exists pos. repeat split; auto. rewrite Hlen. lia.
Qed.

(** C8.  For a request of at least one point, [get_points] returns
    [min(n, N)] indices of the pool of [N] points, all different and all
    below [N]; when the request is not below [N], they are the indices
    [0 .. N-1], each once. *)
Theorem get_points_distinct {A : Type} (npoints : Z) (points : list A) :
  (1 <= npoints)%Z ->
  exists res,
    get_points npoints points = inr res /\
    Z.of_nat (List.length res) =
      Z.min npoints (Z.of_nat (List.length points)) /\
    NoDup res /\
    Forall (fun i => i < List.length points) res /\
    ((Z.of_nat (List.length points) <= npoints)%Z ->
     Permutation res (seq 0 (List.length points))).
Proof.
  intros Hn.
  destruct (@get_points_value A npoints points) as (res & E & Hlen & Hnd & Hall);
    [ lia |].
  exists res. repeat split; auto.
  intros Hbig. apply NoDup_Permutation_bis; auto.
  - rewrite length_seq. lia.
  - intros i Hi. apply in_seq. rewrite Forall_forall in Hall.
    specialize (Hall _ Hi). lia.
Qed.

(** C7 (as the code has it).  A negative request fails with the
    [ValueError] of [random.sample]; a request of no point, and a request
    that is not negative on an empty pool, return the empty list. *)
Theorem get_points_degenerate {A : Type} (npoints : Z) (points : list A) :
  ((npoints < 0)%Z -> get_points npoints points = inl ValueError) /\
  (npoints = 0%Z \/ (points = [] /\ (0 <= npoints)%Z) ->
   get_points npoints points = inr []).
Proof.
  split.
  - intros Hneg. unfold get_points.
    apply (proj1 (contract _ _)). lia.
  - intros Hd.
    destruct (@get_points_value A npoints points) as (res & E & Hlen & _);
      [ destruct Hd as [-> | [_ ?]]; lia |].
    rewrite E. f_equal.
    destruct res; [ reflexivity |].
    simpl in Hlen. destruct Hd as [-> | [-> ?]]; simpl in Hlen; lia.
Qed.

End SelectorFacts.

(* ===================================================================== *)
(** * The reader: kernel sections, training data, nugget                  *)
(* ===================================================================== *)

Section ReaderTheorems.

Context {F : Type} `{Float F} {K : Type} `{Kernels F K} `{LinAlg F}.

Local Abbreviation state := (@state F K).
Local Abbreviation Model := (@Model F K).

(** C4 (as the code has it).  When the loop comes to a [[kernel.<name>]]
    line, the next line gives the type as its last token; for [rbf], and
    just the same for [rbf-cyclic] and [rbf-cylic], the two lines after
    the type line are skipped and the third is the data line: its tokens
    but the first, as floats, are the lengthscale stored under the name.
    The loop goes on with the line after the data line. *)
Theorem kernel_section_layout (st : state) hdr ty h1 h2 data post
    tname ls :
  f st = hdr :: ty :: h1 :: h2 :: data :: post ->
  dispatch hdr = KernelSec ->
  kernel_type ty = inr tname ->
  lengthscale_of data = inr ls ->
  (tname = "rbf" ->
   run st =
   run (with_kernels (dict_set (kernel_name hdr) (RBF ls) (kernel_list st))
          (with_f post st))) /\
  (tname = "rbf-cyclic" \/ tname = "rbf-cylic" ->
   run st =
   run (with_kernels
          (dict_set (kernel_name hdr) (RBFCyclic ls) (kernel_list st))
          (with_f post st))).
Proof.
  intros Ef Hd Hty Hls.
  rewrite (run_cons _ Ef), (body_kernel _ Hd).
  split.
  - intros ->.
    erewrite kernel_section_rbf;
      [ reflexivity | reflexivity | exact Hty | exact Hls ].
  - intros Hname.
    erewrite kernel_section_cyclic;
      [ reflexivity | reflexivity | exact Hty | exact Hname | exact Hls ].
Qed.

(** C6 (as the code has it).  When the loop comes to the
    [[training_data.x]] line, the lines up to the first blank one give one
    row each, the floats of their tokens, and the rows (of one length) are
    stored as the training inputs; at the [[training_data.y]] line they
    give one value each.  Nothing is compared with the numbers of
    features and of training points the state holds, and the loop goes on
    after the blank line. *)
Theorem training_data_blocks (st : state) hdr rows line0 post :
  f st = hdr :: rows ++ line0 :: post ->
  blank line0 ->
  (forall xs,
     dispatch hdr = XSec -> Forall2 x_row rows xs ->
     np.rectangular xs = true ->
     List.length xs = List.length rows /\
     run st = run (with_self (set_x xs) (with_f post st))) /\
  (forall ys,
     dispatch hdr = YSec -> Forall2 y_row rows ys ->
     List.length ys = List.length rows /\
     run st = run (with_self (set_y ys) (with_f post st))).
Proof.
  intros Ef Hb. split.
  - intros xs Hd Hrows Hrect.
    split; [ symmetry; eapply Forall2_length; eauto |].
    rewrite (run_cons _ Ef), (body_x _ Hd).
    unfold bind, next, while_x, lift, update, np_array_rows.
    cbn [f with_f].
    destruct (rows ++ line0 :: post) as [|l rest] eqn:E.
    { destruct rows; discriminate. }
    cbn [f with_f].
    rewrite (read_x_block Hrows post [] Hb E). cbn [app].
    rewrite Hrect. destruct st; reflexivity.
  - intros ys Hd Hrows.
    split; [ symmetry; eapply Forall2_length; eauto |].
    rewrite (run_cons _ Ef), (body_y _ Hd).
    unfold bind, next, while_y, lift, update.
    cbn [f with_f].
    destruct (rows ++ line0 :: post) as [|l rest] eqn:E.
    { destruct rows; discriminate. }
    cbn [f with_f].
    rewrite (read_y_block Hrows post [] Hb E). cbn [app].
    destruct st; reflexivity.
Qed.

(** C10.  A file whose [[training_data.x]] (or [[training_data.y]]) block
    runs into the end of the file, every line after the section line
    being a data line: when the lines before the section are read
    normally, [_read_file] ends by [StopIteration], and the object is as
    it was when the section line was reached: none of the rows read is
    stored. *)
Theorem unterminated_block_raises (m : Model) pre hdr rows (st1 : state) :
  run (start m pre) = Some (inr tt, st1) ->
  (dispatch hdr = XSec /\ exists xs, Forall2 x_row rows xs) \/
  (dispatch hdr = YSec /\ exists ys, Forall2 y_row rows ys) ->
  _read_file m (pre ++ hdr :: rows) = Some (inl StopIteration, self st1).
Proof.
  intros Hpre Hblock.
  rewrite _read_file_run.
  change (start m (pre ++ hdr :: rows))
    with (with_f (f (start m pre) ++ hdr :: rows) (start m pre)).
  erewrite run_app; [| apply le_n | exact Hpre ].
  rewrite (run_cons (with_f (hdr :: rows) st1) (line := hdr) (rest := rows))
    by reflexivity.
  destruct Hblock as [[Hd [xs Hrows]] | [Hd [ys Hrows]]].
  - erewrite body_x_eof; [ reflexivity | exact Hd | reflexivity | exact Hrows ].
  - erewrite body_y_eof; [ reflexivity | exact Hd | reflexivity | exact Hrows ].
Qed.

(** The nugget of the object [_read_file] leaves is the one of the state
    the loop ends in. *)
Lemma _read_file_nugget (m m' : Model) (lines : list string) r (v : F) :
  (forall r' st', run (start m lines) = Some (r', st') ->
                  nugget (self st') = v) ->
  _read_file m lines = Some (r, m') ->
  nugget m' = v.
Proof.
  intros Hrun E. rewrite _read_file_run in E.
  destruct (run (start m lines)) as [[[e|u] st']|] eqn:Er;
    [ | | discriminate ].
  - injection E as _ <-. eapply Hrun; reflexivity.
  - specialize (Hrun _ _ eq_refl).
    destruct (interpret _ _); injection E as _ <-; exact Hrun.
Qed.

(** C9.  A file none of whose lines has [nugget] in it leaves the nugget
    [__init__] set, [1e-10].  A nugget line the loop comes to, with no
    line having [nugget] in it after it, leaves the float of its last
    token.  And [R] is the kernel's train-train covariance with the
    nugget, times the identity, added: the nugget on the diagonal. *)
Theorem nugget_of_file :
  (forall lines r (m' : Model),
     Forall (fun l => PyStr.contains "nugget" l = false) lines ->
     _read_file Model_init lines = Some (r, m') ->
     nugget m' = f1em10) /\
  (forall (m : Model) pre line post (st1 : state) tok v r m',
     run (start m pre) = Some (inr tt, st1) ->
     dispatch line = Nugget ->
     getlast (PyStr.split line) = inr tok ->
     float tok = inr v ->
     Forall (fun l => PyStr.contains "nugget" l = false) post ->
     _read_file m (pre ++ line :: post) = Some (r, m') ->
     nugget m' = v) /\
  (forall (m : Model) kern rows (n : nat) (KR : nat -> nat -> F),
     k m = Some kern ->
     _x m = Some rows ->
     _ntrain m = Some (Z.of_nat n) ->
     k_R kern (np.array2 rows) = inr (np.Mat n n KR) ->
     exists a,
       R m = inr (np.Mat n n a) /\
       forall i j, i < n -> j < n ->
         a i j = fadd (KR i j)
                      (fmul (nugget m) (if i =? j then f1 else f0))).
Proof.
  split; [| split ].
  - intros lines r m' Hall E.
    eapply _read_file_nugget; [| exact E ]. intros r' st' Er.
    eapply run_keeps_nugget in Er; [ exact Er | apply le_n | exact Hall ].
  - intros m pre line post st1 tok v r m' Hpre Hd Htok Hv Hall E.
    eapply _read_file_nugget; [| exact E ]. intros r' st' Er.
    change (start m (pre ++ line :: post))
      with (with_f (f (start m pre) ++ line :: post) (start m pre)) in Er.
    erewrite run_app in Er; [| apply le_n | exact Hpre ].
    rewrite (run_cons (with_f (line :: post) st1)
               (line := line) (rest := post)) in Er by reflexivity.
    rewrite (body_nugget _ Hd) in Er.
    unfold bind, lift, update in Er. rewrite Htok, Hv in Er.
    eapply run_keeps_nugget in Er; [ exact Er | apply le_n | exact Hall ].
  - intros m kern rows n KR. apply R_value.
Qed.

End ReaderTheorems.

(* ===================================================================== *)
(** * The reader: the other lines of a file                               *)
(* ===================================================================== *)

(** A line with a word in it has a token. *)
Section Tokens.

Lemma split_from_nil (s : string) :
  forall cur,
    PyStr.split_from cur s = [] ->
    cur = "" /\ forallb PyStr.isspace (list_ascii_of_string s) = true.
Proof.
  induction s as [|c s IH]; intros cur E; simpl in E.
  - destruct cur; [ auto | discriminate ].
  - simpl. destruct (PyStr.isspace c) eqn:Ec.
    + destruct cur; simpl in E; [| discriminate ].
      destruct (IH _ E) as [_ Hs]. auto.
    + destruct (IH _ E) as [Hcur _]. destruct cur; discriminate.
Qed.

Lemma prefix_spaces (p : string) :
  forall s,
    String.prefix p s = true ->
    forallb PyStr.isspace (list_ascii_of_string s) = true ->
    forallb PyStr.isspace (list_ascii_of_string p) = true.
Proof.
  induction p as [|c p IH]; intros s Hp Hs; [ reflexivity |].
  destruct s as [|c' s]; simpl in Hp; [ discriminate |].
  destruct (ascii_dec c c') as [<- | Hne]; [| discriminate ].
  simpl in Hs |- *. apply andb_true_iff in Hs as [Hc Hs].
  rewrite Hc. simpl. eapply IH; eauto.
Qed.

Lemma contains_spaces (p s : string) :
  PyStr.contains p s = true ->
  forallb PyStr.isspace (list_ascii_of_string s) = true ->
  forallb PyStr.isspace (list_ascii_of_string p) = true.
Proof.
  induction s as [|c s IH]; simpl; intros Hc Hs.
  - rewrite orb_false_r in Hc. apply (prefix_spaces p "" Hc). reflexivity.
  - apply orb_true_iff in Hc as [Hc | Hc].
    + apply (prefix_spaces p (String c s) Hc). exact Hs.
    + apply andb_true_iff in Hs as [_ Hs]. auto.
Qed.

Lemma getlast_contains (p s : string) :
  PyStr.contains p s = true ->
  forallb PyStr.isspace (list_ascii_of_string p) = false ->
  exists tok, getlast (PyStr.split s) = inr tok.
Proof.
  intros Hc Hp. unfold getlast.
  destruct (rev (PyStr.split s)) as [|tok l] eqn:E; [| now exists tok ].
  exfalso.
  assert (Hnil : PyStr.split s = []).
  { rewrite <- (rev_involutive (PyStr.split s)), E. reflexivity. }
  destruct (split_from_nil _ _ Hnil) as [_ Hs].
  rewrite (contains_spaces _ _ Hc Hs) in Hp. discriminate.
Qed.

End Tokens.

Section ReaderLines.

Context {F : Type} `{Float F} {K : Type} `{Kernels F K}.

Local Abbreviation state := (@state F K).
Local Abbreviation Model := (@Model F K).

Lemma dispatch_composition (line : string) :
  dispatch line = Composition -> PyStr.contains "composition" line = true.
Proof.
  unfold dispatch.
  repeat match goal with
         | |- (if ?b then _ else _) = _ -> _ =>
             destruct b eqn:?; try discriminate
         end; auto.
Qed.

Lemma dispatch_nugget (line : string) :
  dispatch line = Nugget -> PyStr.contains "nugget" line = true.
Proof.
  unfold dispatch.
  repeat match goal with
         | |- (if ?b then _ else _) = _ -> _ =>
             destruct b eqn:?; try discriminate
         end; auto.
Qed.

(** X17.  A [composition] line the loop comes to always has a last
    token, which becomes the composition the interpreter is given: the
    line raises nothing, and the loop goes on with the next line. *)
Theorem composition_line (st : state) line post :
  f st = line :: post ->
  dispatch line = Composition ->
  exists v,
    getlast (PyStr.split line) = inr v /\
    run st = run (with_composition v (with_f post st)).
Proof.
  intros Ef Hd.
  destruct (getlast_contains "composition" line (dispatch_composition _ Hd)
              eq_refl) as [v Hv].
  exists v. split; [ exact Hv |].
  rewrite (run_cons _ Ef), (body_composition _ Hd).
  unfold bind, lift, update. rewrite Hv. reflexivity.
Qed.

(** X18.  A [nugget] line the loop comes to always has a last token.
    Either [float] reads that token and the nugget becomes the number it
    gives, the loop going on with the next line, or [float] raises its
    [ValueError] on that token and the loop ends by it, the object as it
    was: the line has no other outcome, and never raises [IndexError]. *)
Theorem nugget_line_outcomes (st : state) line post :
  f st = line :: post ->
  dispatch line = Nugget ->
  exists tok,
    getlast (PyStr.split line) = inr tok /\
    ((exists v,
        float tok = inr v /\
        run st = run (with_self (set_nugget v) (with_f post st))) \/
     (float tok = inl ValueError /\
      run st = Some (inl ValueError, with_f post st))).
Proof.
  intros Ef Hd.
  destruct (getlast_contains "nugget" line (dispatch_nugget _ Hd) eq_refl)
    as [tok Htok].
  exists tok. split; [ exact Htok |].
  rewrite (run_cons _ Ef), (body_nugget _ Hd).
  unfold bind, lift, update. rewrite Htok. unfold float.
  destruct (float_of_string tok) as [v|].
  - left. exists v. split; reflexivity.
  - right. split; reflexivity.
Qed.

(** X19.  An [rbf], [rbf-cyclic] or [rbf-cylic] section with fewer than
    three lines after its type line ends the loop by [StopIteration]; no
    kernel is stored and the object is as it was. *)
Theorem kernel_section_eof (st : state) hdr ty rest tname :
  f st = hdr :: ty :: rest ->
  dispatch hdr = KernelSec ->
  kernel_type ty = inr tname ->
  tname = "rbf" \/ tname = "rbf-cyclic" \/ tname = "rbf-cylic" ->
  List.length rest < 3 ->
  run st = Some (inl StopIteration, with_f [] st).
Proof.
  intros Ef Hd Hty Hname Hlen.
  rewrite (run_cons _ Ef), (body_kernel _ Hd).
  unfold kernel_type in Hty.
  destruct (getlast (PyStr.split ty)) as [e|tok] eqn:Etok; [ discriminate |].
  injection Hty as Hty.
  unfold kernel_section, bind, next, lift, ret. cbn [f with_f].
  rewrite Etok, Hty.
  destruct Hname as [-> | [-> | ->]].
  - change (String.eqb "rbf" "rbf") with true. cbn [f with_f].
    destruct rest as [|l1 [|l2 [|l3 rest]]]; cbn [f with_f];
      try reflexivity. simpl in Hlen. lia.
  - change (String.eqb "rbf-cyclic" "rbf") with false.
    change (String.eqb "rbf-cyclic" "rbf-cyclic") with true.
    cbn [f with_f orb].
    destruct rest as [|l1 [|l2 [|l3 rest]]]; cbn [f with_f];
      try reflexivity. simpl in Hlen. lia.
  - change (String.eqb "rbf-cylic" "rbf") with false.
    change (String.eqb "rbf-cylic" "rbf-cyclic") with false.
    change (String.eqb "rbf-cylic" "rbf-cylic") with true.
    cbn [f with_f orb].
    destruct rest as [|l1 [|l2 [|l3 rest]]]; cbn [f with_f];
      try reflexivity. simpl in Hlen. lia.
Qed.

(** X2.  A comment line, and a line none of the tests of the loop holds
    of, change nothing when the loop comes to them: the file reads as the
    file without the line. *)
Theorem skipped_line (m : Model) pre line post (st1 : state) :
  run (start m pre) = Some (inr tt, st1) ->
  dispatch line = Comment \/ dispatch line = Other ->
  _read_file m (pre ++ line :: post) = _read_file m (pre ++ post).
Proof.
  intros Hpre Hd. rewrite !_read_file_run.
  change (start m (pre ++ line :: post))
    with (with_f (f (start m pre) ++ line :: post) (start m pre)).
  change (start m (pre ++ post))
    with (with_f (f (start m pre) ++ post) (start m pre)).
  erewrite !run_app; [| apply le_n | exact Hpre | apply le_n | exact Hpre ].
  erewrite run_cons by reflexivity.
  rewrite (body_skip _ Hd). reflexivity.
Qed.

(** X3.  When the loop comes to a line with [name] in it, to a line that
    starts with [atom], or to a line with [property] in it (in this order
    of precedence), the second token of the line becomes the system, the
    atom or the property of the object, and the loop goes on with the next
    line. *)
Theorem identifier_lines (st : state) line post v :
  f st = line :: post ->
  getitem (PyStr.split line) 1 = inr v ->
  (dispatch line = Name ->
   run st = run (with_self (set_system v) (with_f post st))) /\
  (dispatch line = Atom ->
   run st = run (with_self (set_atom v) (with_f post st))) /\
  (dispatch line = Property ->
   run st = run (with_self (set_type v) (with_f post st))).
Proof.
  intros Ef Hv. rewrite (run_cons _ Ef).
  repeat split; intros Hd;
    [ rewrite (body_name _ Hd) | rewrite (body_atom _ Hd)
    | rewrite (body_property _ Hd) ];
    unfold bind, lift, update; rewrite Hv; reflexivity.
Qed.

(** X4.  A line of one of the five kinds that read their second token
    (system, atom, property, number of features, number of training
    points) and that has fewer than two tokens ends the loop by
    [IndexError]; the object is as it was. *)
Theorem one_token_line (st : state) line post :
  f st = line :: post ->
  List.length (PyStr.split line) < 2 ->
  dispatch line = Name \/ dispatch line = Atom \/ dispatch line = Property \/
  dispatch line = NFeats \/ dispatch line = NTrain ->
  run st = Some (inl IndexError, with_f post st).
Proof.
  intros Ef Hlen Hd. rewrite (run_cons _ Ef).
  pose proof (getitem_short _ Hlen) as Hg.
  destruct Hd as [Hd | [Hd | [Hd | [Hd | Hd]]]];
    [ rewrite (body_name _ Hd) | rewrite (body_atom _ Hd)
    | rewrite (body_property _ Hd) | rewrite (body_nfeats _ Hd)
    | rewrite (body_ntrain _ Hd) ];
    unfold bind, lift, update; rewrite Hg; reflexivity.
Qed.

(** X5.  When the loop comes to a [number_of_features] or a
    [number_of_training_points] line, the integer of the second token
    becomes the number of features or of training points, and the loop
    goes on with the next line. *)
Theorem count_lines (st : state) line post tok v :
  f st = line :: post ->
  getitem (PyStr.split line) 1 = inr tok ->
  PyStr.int tok = inr v ->
  (dispatch line = NFeats ->
   run st = run (with_self (set_nfeats v) (with_f post st))) /\
  (dispatch line = NTrain ->
   run st = run (with_self (set_ntrain v) (with_f post st))).
Proof.
  intros Ef Htok Hv. rewrite (run_cons _ Ef).
  split; intros Hd;
    [ rewrite (body_nfeats _ Hd) | rewrite (body_ntrain _ Hd) ];
    unfold bind, lift, update; rewrite Htok, Hv; reflexivity.
Qed.

(** X6.  When the loop comes to a [[mean]] line, the next line is skipped
    and the float of the second token of the line after it becomes the
    value of a constant mean; the loop goes on after that line. *)
Theorem mean_section_layout (st : state) hdr skipped data post tok v :
  f st = hdr :: skipped :: data :: post ->
  dispatch hdr = MeanSec ->
  getitem (PyStr.split data) 1 = inr tok ->
  float tok = inr v ->
  run st = run (with_self (set_mean (ConstantMean v)) (with_f post st)).
Proof.
  intros Ef Hd Htok Hv. rewrite (run_cons _ Ef), (body_mean_section _ Hd).
  unfold bind, next, lift, update. cbn [f with_f].
  rewrite Htok, Hv. reflexivity.
Qed.

(** X7.  A [[mean]] line with fewer than two lines after it ends the loop
    by [StopIteration], with the mean and all else of the object as they
    were. *)
Theorem mean_section_eof (st : state) hdr rest :
  f st = hdr :: rest ->
  dispatch hdr = MeanSec ->
  List.length rest < 2 ->
  run st = Some (inl StopIteration, with_f [] st).
Proof.
  intros Ef Hd Hlen. rewrite (run_cons _ Ef), (body_mean_section _ Hd).
  unfold bind, next, lift, update. cbn [f with_f].
  destruct rest as [|l1 [|l2 rest]]; cbn [f with_f];
    [ reflexivity | reflexivity | simpl in Hlen; lia ].
Qed.

(** X8.  A [[kernel.<name>]] section whose type is none of [rbf],
    [rbf-cyclic] and [rbf-cylic] takes the type line only and stores no
    kernel: the loop goes on with the line after the type line. *)
Theorem unknown_kernel_type (st : state) hdr ty post tname :
  f st = hdr :: ty :: post ->
  dispatch hdr = KernelSec ->
  kernel_type ty = inr tname ->
  tname <> "rbf" -> tname <> "rbf-cyclic" -> tname <> "rbf-cylic" ->
  run st = run (with_f post st).
Proof.
  intros Ef Hd Hty H1 H2 H3.
  rewrite (run_cons _ Ef), (body_kernel _ Hd).
  unfold kernel_type in Hty.
  destruct (getlast (PyStr.split ty)) as [e|tok] eqn:Etok; [ discriminate |].
  injection Hty as Hty.
  unfold kernel_section, bind, next, lift, ret. cbn [f with_f].
  rewrite Etok, Hty.
  apply String.eqb_neq in H1, H2, H3. rewrite H1, H2, H3.
  reflexivity.
Qed.

(** X9.  After an [rbf] section is read, looking its name up in the
    kernels gives the kernel of the section, whatever was there under the
    name before; the kernels under the other names, and the object, are as
    they were. *)
Theorem kernel_section_lookup (st : state) hdr ty h1 h2 data post ls :
  f st = ty :: h1 :: h2 :: data :: post ->
  kernel_type ty = inr "rbf" ->
  lengthscale_of data = inr ls ->
  exists st',
    kernel_section hdr st = (inr tt, st') /\
    dict_get (kernel_name hdr) (kernel_list st') = Some (RBF ls) /\
    (forall name, name <> kernel_name hdr ->
       dict_get name (kernel_list st') = dict_get name (kernel_list st)) /\
    self st' = self st /\
    f st' = post.
Proof.
  intros Ef Hty Hls. eexists. split.
  - eapply kernel_section_rbf; eauto.
  - cbn [kernel_list with_kernels self f with_f].
    split; [ apply dict_get_set_same |].
    split; [ intros name Hne; now apply dict_get_set_other |].
    split; reflexivity.
Qed.

(** X10.  [_read_file] assigns the kernel [k] only when the whole file was
    read: when it ends by an exception, [k] is as it was before the call;
    when it ends normally, [k] holds a kernel. *)
Theorem kernel_set_on_success (m m' : Model) (lines : list string) r :
  _read_file m lines = Some (r, m') ->
  match r with
  | inl _ => k m' = k m
  | inr _ => exists kern, k m' = Some kern
  end.
Proof.
  intros E. rewrite _read_file_run in E.
  destruct (run (start m lines)) as [[[e|u] st']|] eqn:Er;
    [ | | discriminate ].
  - injection E as <- <-.
    eapply run_keeps_k in Er; [ exact Er | apply le_n ].
  - eapply run_keeps_k in Er; [| apply le_n ].
    destruct (interpret _ _) as [e|kern]; injection E as <- <-.
    + exact Er.
    + now exists kern.
Qed.

End ReaderLines.

(* ===================================================================== *)
(** * Concrete runs                                                       *)
(* ===================================================================== *)


Section ConcreteRuns.

Import QModel Runs.

Local Abbreviation QM := (Model (F := Q) (K := Kernel Q)).
Local Abbreviation Qstate := (state (F := Q) (K := Kernel Q)).

(** A call that returned a matrix returned the matrix of its items. *)
Lemma matrix_of_shape (r : result (np.ndarray Q)) (n c : nat) :
  shape_of r = inr [n; c] -> r = inr (np.Mat n c (matrix_of r)).
Proof.
  destruct r as [e|[x|n' v|n' c' a]]; simpl; intros E; inversion E;
    reflexivity.
Qed.

Lemma variance_value_witness :
  exists v,
    variance water_model half = inr (np.Vec 1 v) /\
    forall i, i < 1 ->
      v i = variance_formula 2 (matrix_of (invR water_model))
              (fun j => matrix_of
                          (k_r (RBF [1%Q; 1%Q])
                               (np.array2 [[0%Q; 0%Q]; [1%Q; 1%Q]])
                               (check_x_2d half)) j i).
Proof.
  refine (@variance_value Q _ (Kernel Q) _ _ water_model half
            (RBF [1%Q; 1%Q]) [[0%Q; 0%Q]; [1%Q; 1%Q]] 2 1
            (matrix_of (k_r (RBF [1%Q; 1%Q])
                            (np.array2 [[0%Q; 0%Q]; [1%Q; 1%Q]])
                            (check_x_2d half)))
            (matrix_of (invR water_model)) _ _ _ _ _ _).
  - reflexivity.
  - reflexivity.
  - reflexivity.
  - reflexivity.
  - apply matrix_of_shape. vm_compute. reflexivity.
  - apply matrix_of_shape. vm_compute. reflexivity.
Defined.

Lemma predict_entries_witness :
  (exists v,
     predict water_model half = inr (np.Vec 1 v) /\
     forall i, i < 1 ->
       v i = fadd ((fun _ _ : nat => 1%Q) i 0)
               (np.fsum 2 (fun j =>
                  fmul (matrix_of
                          (k_r (RBF [1%Q; 1%Q])
                               (np.array2 [[0%Q; 0%Q]; [1%Q; 1%Q]])
                               (check_x_2d half)) j i)
                       (matrix_of (weights water_model) j 0)))) /\
  (forall d u,
     predict water_model (np.Vec d u) =
     predict water_model (np.Mat 1 d (fun _ j => u j))).
Proof.
  refine (@predict_entries Q _ (Kernel Q) _ _ water_model half
            (ConstantMean 1%Q) (RBF [1%Q; 1%Q])
            [[0%Q; 0%Q]; [1%Q; 1%Q]] 2 1 (fun _ _ => 1%Q)
            (matrix_of (k_r (RBF [1%Q; 1%Q])
                            (np.array2 [[0%Q; 0%Q]; [1%Q; 1%Q]])
                            (check_x_2d half)))
            (matrix_of (weights water_model)) _ _ _ _ _ _ _).
  - reflexivity.
  - reflexivity.
  - reflexivity.
  - reflexivity.
  - reflexivity.
  - apply matrix_of_shape. vm_compute. reflexivity.
  - apply matrix_of_shape. vm_compute. reflexivity.
Defined.



(** C5, at a failing input.  With the quadratic mean on the two training
    points of [water], the weights are a 2 by 2 matrix; with the constant
    mean they are the column of two. *)
Theorem weights_quadratic_shape :
  shape_of (weights quadratic_model) = inr [2; 2] /\
  shape_of (weights water_model) = inr [2; 1].
Proof. split; vm_compute; reflexivity. Qed.

(** C2, at a failing input.  With the quadratic mean on the two training
    points of [water], [predict] returns two items for one test point and
    four for two, and fails with [ValueError] for three; with the constant
    mean it returns one item for each test point.  The flattened value of
    the quadratic mean, which also makes the weights a square, does it. *)
Theorem predict_quadratic_shape :
  np.shape (check_x_2d half) = [1; 2] /\
  shape_of (predict quadratic_model half) = inr [2] /\
  shape_of (predict quadratic_model (halves 2)) = inr [4] /\
  shape_of (predict quadratic_model (halves 3)) = inl ValueError /\
  shape_of (predict water_model half) = inr [1] /\
  shape_of (predict water_model (halves 2)) = inr [2] /\
  shape_of (predict water_model (halves 3)) = inr [3].
Proof. repeat split; vm_compute; reflexivity. Qed.

(** C4, counterexample.  With one line between the type line and the
    line of the lengthscales, the lengthscales read are those of the line
    after it, here none, not the [1.0 1.0] of the file. *)
Lemma one_header_misread :
  lengthscale_of (F := Q) "thetas 1.0 1.0
" = inr [1%Q; 1%Q] /\
  exists m : QM,
    _read_file Model_init one_header = Some (inr tt, m) /\
    k m = Some (RBF []) /\
    k m <> Some (RBF [1%Q; 1%Q]).
Proof.
  split; [ vm_compute; reflexivity |].
  eexists. split; [ vm_compute; reflexivity |].
  split; [ reflexivity | discriminate ].
Qed.

Lemma kernel_section_layout_witness :
  run (start (Model_init : QM)
         [ "[kernel.k1]
"; "type rbf
"; "number_of_dimensions 2
"; "active_dimensions 1 1
"; "thetas 1.0 1.0
" ])
  = run (with_kernels [("k1", RBF [1%Q; 1%Q])]
           (start (Model_init : QM) [])).
Proof.
  refine (proj1 (@kernel_section_layout Q _ (Kernel Q)
                   (start (Model_init : QM) _) "[kernel.k1]
" "type rbf
" "number_of_dimensions 2
" "active_dimensions 1 1
" "thetas 1.0 1.0
" [] "rbf" [1%Q; 1%Q] _ _ _ _) eq_refl).
  - reflexivity.
  - vm_compute. reflexivity.
  - vm_compute. reflexivity.
  - vm_compute. reflexivity.
Defined.

(** C6, counterexample.  The file announces two training points of two
    features, holds one input of three features and two outputs, and is
    read without an error. *)
Lemma miscounted_accepted :
  exists m : QM,
    _read_file Model_init miscounted = Some (inr tt, m) /\
    _nfeats m = Some 2%Z /\ _ntrain m = Some 2%Z /\
    _x m = Some [[0%Q; 0%Q; 0%Q]] /\
    _y m = Some [0%Q; 2%Q].
Proof.
  eexists. split; [ vm_compute; reflexivity |].
  repeat split; reflexivity.
Qed.

Lemma training_data_blocks_witness :
  List.length [[0%Q; 0%Q]; [1%Q; 1%Q]] = 2 /\
  run (start (Model_init : QM)
         [ "[training_data.x]
"; "0.0 0.0
"; "1.0 1.0
"; "
" ])
  = run (with_self (set_x [[0%Q; 0%Q]; [1%Q; 1%Q]])
           (start (Model_init : QM) [])).
Proof.
  refine (proj1 (@training_data_blocks Q _ (Kernel Q)
                   (start (Model_init : QM) _) "[training_data.x]
"
                   [ "0.0 0.0
"; "1.0 1.0
" ] "
" [] _ _)
            [[0%Q; 0%Q]; [1%Q; 1%Q]] _ _ _).
  - reflexivity.
  - vm_compute. reflexivity.
  - vm_compute. reflexivity.
  - repeat constructor.
  - reflexivity.
Defined.

Lemma unterminated_block_raises_witness :
  _read_file (Model_init : QM)
    ([ "number_of_training_points 2
" ] ++ "[training_data.x]
" :: [ "0.0 0.0
"; "1.0 1.0
" ])
  = Some (inl StopIteration, set_ntrain 2%Z Model_init).
Proof.
  apply (@unterminated_block_raises Q _ (Kernel Q) _ Model_init _ _ _
           (with_self (set_ntrain 2%Z) (start Model_init []))).
  - vm_compute; reflexivity.
  - left. split; [ vm_compute; reflexivity |].
    exists [[0%Q; 0%Q]; [1%Q; 1%Q]]. repeat constructor.
Defined.

Lemma nugget_of_file_witness :
  nugget (set_nugget (1 # 2)%Q (Model_init : QM)) = (1 # 2)%Q.
Proof.
  apply (proj1 (proj2 (nugget_of_file (F := Q) (K := Kernel Q)))
           Model_init [] "nugget 0.5
" [] (start Model_init []) "0.5" (1 # 2)%Q (inl ValueError)).
  - vm_compute; reflexivity.
  - vm_compute; reflexivity.
  - vm_compute; reflexivity.
  - vm_compute; reflexivity.
  - constructor.
  - vm_compute; reflexivity.
Defined.

(** C7, counterexample.  A request of no point, and a request on an
    empty pool, return the empty list. *)
Lemma get_points_no_error :
  get_points (H := random.Pool_Random rng0) 0 ["a"; "b"; "c"] = inr [] /\
  get_points (H := random.Pool_Random rng0) 2 (@nil string) = inr [].
Proof. split; reflexivity. Qed.

Lemma get_points_degenerate_witness :
  get_points (H := random.Pool_Random rng0) (-1) ["a"; "b"; "c"]
  = inl ValueError.
Proof.
  apply (proj1 (@get_points_degenerate (random.Pool_Random rng0)
                  (pool_sample_contract rng0) string (-1)%Z
                  ["a"; "b"; "c"])).
  reflexivity.
Defined.

Lemma get_points_distinct_witness :
  exists res,
    get_points (H := random.Pool_Random rng0) 7 ["a"; "b"; "c"] = inr res /\
    Z.of_nat (List.length res) = Z.min 7 3 /\
    NoDup res /\
    Forall (fun i => i < 3) res /\
    ((3 <= 7)%Z -> Permutation res [0; 1; 2]).
Proof.
  apply (@get_points_distinct (random.Pool_Random rng0)
           (pool_sample_contract rng0) string 7%Z ["a"; "b"; "c"]).
  lia.
Defined.

(** ** Runs of the other properties *)

Lemma skipped_line_witness :
  _read_file (Model_init : QM)
    ([ "name WATER
" ] ++ "# a comment
" :: [ "atom O1
" ])
  = _read_file (Model_init : QM)
      ([ "name WATER
" ] ++ [ "atom O1
" ]).
Proof.
  eapply skipped_line.
  - vm_compute. reflexivity.
  - left. vm_compute. reflexivity.
Defined.

Lemma identifier_lines_witness :
  run (start (Model_init : QM) [ "name WATER
" ])
  = run (with_self (set_system "WATER")
           (with_f [] (start (Model_init : QM) [ "name WATER
" ]))).
Proof.
  edestruct (identifier_lines (F := Q) (K := Kernel Q))
    with (st := start (Model_init : QM) [ "name WATER
" ])
    (line := "name WATER
") (post := @nil string) (v := "WATER")
    as (W & _ & _).
  - reflexivity.
  - vm_compute. reflexivity.
  - apply W. vm_compute. reflexivity.
Defined.

(** A kernel called [rename] has [name] in its section line, which makes
    it a line for the system name, of one token. *)
Lemma one_token_line_witness :
  run (start (Model_init : QM) [ "[kernel.rename]
" ])
  = Some (inl IndexError,
          with_f [] (start (Model_init : QM) [ "[kernel.rename]
" ])).
Proof.
  eapply one_token_line.
  - reflexivity.
  - vm_compute. lia.
  - left. vm_compute. reflexivity.
Defined.

Lemma count_lines_witness :
  run (start (Model_init : QM) [ "number_of_features 3
" ])
  = run (with_self (set_nfeats 3%Z)
           (with_f [] (start (Model_init : QM) [ "number_of_features 3
" ]))).
Proof.
  edestruct (count_lines (F := Q) (K := Kernel Q))
    with (st := start (Model_init : QM) [ "number_of_features 3
" ])
         (line := "number_of_features 3
") (post := @nil string) (tok := "3") (v := 3%Z)
    as (W & _).
  - reflexivity.
  - vm_compute. reflexivity.
  - vm_compute. reflexivity.
  - apply W. vm_compute. reflexivity.
Defined.

Lemma mean_section_layout_witness :
  run (start (Model_init : QM)
         [ "[mean]
"; "type constant
"; "value 1.5
" ])
  = run (with_self (set_mean (ConstantMean (3 # 2)%Q))
           (with_f [] (start (Model_init : QM)
              [ "[mean]
"; "type constant
"; "value 1.5
" ]))).
Proof.
  eapply mean_section_layout with (tok := "1.5").
  - reflexivity.
  - vm_compute. reflexivity.
  - vm_compute. reflexivity.
  - vm_compute. reflexivity.
Defined.

Lemma mean_section_eof_witness :
  run (start (Model_init : QM) [ "[mean]
"; "type constant
" ])
  = Some (inl StopIteration,
          with_f [] (start (Model_init : QM) [ "[mean]
"; "type constant
" ])).
Proof.
  eapply mean_section_eof.
  - reflexivity.
  - vm_compute. reflexivity.
  - simpl. lia.
Defined.

Lemma unknown_kernel_type_witness :
  run (start (Model_init : QM)
         [ "[kernel.k1]
"; "type matern
"; "nugget 0.5
" ])
  = run (with_f [ "nugget 0.5
" ] (start (Model_init : QM)
         [ "[kernel.k1]
"; "type matern
"; "nugget 0.5
" ])).
Proof.
  eapply unknown_kernel_type with (tname := "matern").
  - reflexivity.
  - vm_compute. reflexivity.
  - vm_compute. reflexivity.
  - discriminate.
  - discriminate.
  - discriminate.
Defined.

Lemma kernel_section_lookup_witness :
  exists st',
    kernel_section "[kernel.k1]
"
      (start (Model_init : QM)
         [ "type rbf
"; "number_of_dimensions 2
"; "active_dimensions 1 1
"; "thetas 1.0 1.0
" ])
    = (inr tt, st') /\
    dict_get (kernel_name "[kernel.k1]
") (kernel_list st') = Some (RBF [1%Q; 1%Q]) /\
    (forall name, name <> kernel_name "[kernel.k1]
" ->
       dict_get name (kernel_list st') =
       dict_get name
         (kernel_list
            (start (Model_init : QM)
               [ "type rbf
"; "number_of_dimensions 2
"; "active_dimensions 1 1
"; "thetas 1.0 1.0
" ]))) /\
    self st' =
    self (start (Model_init : QM)
            [ "type rbf
"; "number_of_dimensions 2
"; "active_dimensions 1 1
"; "thetas 1.0 1.0
" ]) /\
    f st' = [].
Proof.
  eapply kernel_section_lookup.
  - reflexivity.
  - vm_compute. reflexivity.
  - vm_compute. reflexivity.
Defined.

Lemma kernel_set_on_success_witness :
  exists kern, k water_model = Some kern.
Proof.
  apply (kernel_set_on_success (F := Q) (K := Kernel Q)
           (Model_init : QM) water (r := inr tt)).
  vm_compute. reflexivity.
Defined.

Lemma _read_file_mean_witness : mean_unset_or_constant water_model.
Proof.
  eapply _read_file_mean with (lines := water) (r := inr tt).
  vm_compute. reflexivity.
Defined.

Lemma composition_line_witness :
  exists v,
    getlast (PyStr.split "composition k1
") = inr v /\
    run (start (Model_init : QM) [ "composition k1
" ])
    = run (with_composition v
             (with_f [] (start (Model_init : QM) [ "composition k1
" ]))).
Proof.
  eapply composition_line.
  - reflexivity.
  - vm_compute. reflexivity.
Defined.

Lemma nugget_line_outcomes_witness :
  (exists tok,
     getlast (PyStr.split "nugget small
") = inr tok /\
     ((exists v,
         float tok = inr v /\
         run (start (Model_init : QM) [ "nugget small
" ])
         = run (with_self (set_nugget v)
                  (with_f [] (start (Model_init : QM) [ "nugget small
" ])))) \/
      (float tok = inl ValueError /\
       run (start (Model_init : QM) [ "nugget small
" ])
       = Some (inl ValueError,
               with_f [] (start (Model_init : QM) [ "nugget small
" ]))))) /\
  (exists tok,
     getlast (PyStr.split "nugget 1e-3
") = inr tok /\
     ((exists v,
         float tok = inr v /\
         run (start (Model_init : QM) [ "nugget 1e-3
" ])
         = run (with_self (set_nugget v)
                  (with_f [] (start (Model_init : QM) [ "nugget 1e-3
" ])))) \/
      (float tok = inl ValueError /\
       run (start (Model_init : QM) [ "nugget 1e-3
" ])
       = Some (inl ValueError,
               with_f [] (start (Model_init : QM) [ "nugget 1e-3
" ]))))).
Proof.
  split.
  - eapply nugget_line_outcomes.
    + reflexivity.
    + vm_compute. reflexivity.
  - eapply nugget_line_outcomes.
    + reflexivity.
    + vm_compute. reflexivity.
Defined.

Lemma kernel_section_eof_witness :
  run (start (Model_init : QM)
         [ "[kernel.k1]
"; "type rbf
"; "number_of_dimensions 2
" ])
  = Some (inl StopIteration,
          with_f [] (start (Model_init : QM)
            [ "[kernel.k1]
"; "type rbf
"; "number_of_dimensions 2
" ])).
Proof.
  eapply kernel_section_eof with (tname := "rbf").
  - reflexivity.
  - vm_compute. reflexivity.
  - vm_compute. reflexivity.
  - left. reflexivity.
  - simpl. lia.
Defined.

Lemma quadratic_value_items_witness :
  exists q,
    quadratic_value [1%Q; 1%Q] (np.Vec 2 origin) 0%Q (np.Mat 2 2 train)
    = inr (np.Vec 2 q) /\
    forall i, i < 2 ->
      q i = fadd (np.fsum 2 (fun j =>
                    fmul (fmul (fsub (train i j) (origin j))
                               (fsub (train i j) (origin j)))
                         (nth j [1%Q; 1%Q] f0)))
                 0%Q.
Proof.
  apply quadratic_value_items. reflexivity.
Defined.

Lemma quadratic_value_shapes_witness :
  quadratic_value [1%Q] (np.Vec 2 origin) 0%Q (np.Mat 2 2 train)
  = inl ValueError /\
  quadratic_value [1%Q; 1%Q; 1%Q] (np.Vec 3 origin) 0%Q (np.Mat 2 2 train)
  = inl ValueError /\
  exists q,
    quadratic_value [1%Q; 1%Q; 1%Q] (np.Vec 3 origin) 0%Q (np.Mat 2 1 train)
    = inr (np.Vec 2 q) /\
    forall i, i < 2 ->
      q i = fadd (np.fsum 3 (fun j =>
                    fmul (fmul (fsub (train i 0) (origin j))
                               (fsub (train i 0) (origin j)))
                         (nth j [1%Q; 1%Q; 1%Q] f0)))
                 0%Q.
Proof.
  split; [| split ].
  - apply (proj1 (quadratic_value_shapes (F := Q) [1%Q] origin 0%Q
                    2 2 2 train)).
    simpl. lia.
  - apply (proj1 (proj2 (quadratic_value_shapes (F := Q) [1%Q; 1%Q; 1%Q]
                           origin 0%Q 2 2 3 train))); lia.
  - apply (proj2 (proj2 (quadratic_value_shapes (F := Q) [1%Q; 1%Q; 1%Q]
                           origin 0%Q 2 0 3 train))).
    reflexivity.
Defined.

Lemma weights_value_witness :
  exists w,
    weights water_model = inr (np.Mat 2 1 w) /\
    forall i, i < 2 ->
      w i 0 = np.fsum 2 (fun j =>
                fmul (matrix_of (invR water_model) i j)
                     (fsub (nth j [0%Q; 2%Q] f0) 1%Q)).
Proof.
  apply weights_value
    with (mean := ConstantMean 1%Q) (rows := [[0%Q; 0%Q]; [1%Q; 1%Q]])
         (mu := fun _ _ : nat => 1%Q).
  - apply matrix_of_shape. vm_compute. reflexivity.
  - reflexivity.
  - reflexivity.
  - reflexivity.
  - reflexivity.
  - reflexivity.
Defined.

Lemma inverse_failure_propagates_witness :
  weights singular_model = inl LinAlgError.
Proof.
  edestruct (inverse_failure_propagates (F := Q) (K := Kernel Q))
    with (m := singular_model) (xstar := half) (e := LinAlgError)
    as [W _].
  - vm_compute. reflexivity.
  - exact W.
Defined.

Lemma R_symmetric_witness :
  exists a,
    R water_model = inr (np.Mat 2 2 a) /\
    forall i j, i < 2 -> j < 2 -> a i j = a j i.
Proof.
  apply R_symmetric
    with (kern := RBF [1%Q; 1%Q]) (rows := [[0%Q; 0%Q]; [1%Q; 1%Q]])
         (KR := matrix_of (k_R (RBF [1%Q; 1%Q])
                             (np.array2 [[0%Q; 0%Q]; [1%Q; 1%Q]]))).
  - reflexivity.
  - reflexivity.
  - reflexivity.
  - apply matrix_of_shape. vm_compute. reflexivity.
  - intros i j Hi Hj.
    destruct i as [|[|i]]; destruct j as [|[|j]]; try lia;
      vm_compute; reflexivity.
Defined.

Lemma R_count_mismatch_witness :
  R miscounted_model = inl ValueError.
Proof.
  edestruct (R_count_mismatch (F := Q) (K := Kernel Q))
    with (m := miscounted_model) (kern := RBF [1%Q; 1%Q])
         (rows := [[0%Q; 0%Q]; [1%Q; 1%Q]]) (n' := 2)
         (KR := matrix_of (k_R (RBF [1%Q; 1%Q])
                             (np.array2 [[0%Q; 0%Q]; [1%Q; 1%Q]])))
    as [W _].
  - reflexivity.
  - reflexivity.
  - apply matrix_of_shape. vm_compute. reflexivity.
  - apply (W 3); [ reflexivity | lia | lia | lia ].
Defined.

End ConcreteRuns.
